(** * The banking assistant's chat service ([python_service/main.py])

    A shallow embedding of the [/chat] endpoint: the model dispatcher with its
    fallback loop, the code-fence clean-up, the interpretation of the model's
    JSON directive, the execution of the aggregation pipeline, the
    string conversion of the records and the summarisation call.

    The two external collaborators (the hosted model and the document store)
    and the library functions the endpoint calls ([json.loads], [json.dumps],
    [repr]) are the fields of the class [Collaborators]; the endpoint itself
    is a program in a small state-and-exception monad whose state holds the
    module's globals and the trace of the external calls made so far. *)

From Stdlib Require Import String Ascii ZArith List Bool Floats.PrimFloat.
From stdpp Require Import gmap strings list pretty.

Set Warnings "-register-all,-inexact-float".

(** ** Python's [str] methods

    A Python [str] is modelled by a [string] whose characters are the code
    points below 256. *)
Module PyStr.

(** [c.isspace()] for a code point below 256: TAB..CR, FS..US, space, NEL
    and the no-break space. *)
Definition isspace (c : ascii) : bool :=
  let n := nat_of_ascii c in
  (Nat.leb 9 n && Nat.leb n 13) || (Nat.leb 28 n && Nat.leb n 32)
  || Nat.eqb n 133 || Nat.eqb n 160.

Fixpoint lstrip (s : string) : string :=
  match s with
  | String c s' => if isspace c then lstrip s' else s
  | EmptyString => EmptyString
  end.

Fixpoint rstrip (s : string) : string :=
  match s with
  | EmptyString => EmptyString
  | String c s' =>
      match rstrip s' with
      | EmptyString => if isspace c then EmptyString else String c EmptyString
      | r => String c r
      end
  end.

(** [s.strip()] *)
Definition strip (s : string) : string := lstrip (rstrip s).

(** Every character of [s] is whitespace ([s] may be empty). *)
Fixpoint all_space (s : string) : bool :=
  match s with
  | String c s' => isspace c && all_space s'
  | EmptyString => true
  end.

(** [s.startswith(p)] *)
Definition startswith (s p : string) : bool := String.prefix p s.

(** [s.endswith(p)] *)
Fixpoint endswith (s p : string) : bool :=
  String.eqb s p ||
  match s with
  | String _ s' => endswith s' p
  | EmptyString => false
  end.

(** [s[n:]] for [n >= 0] *)
Fixpoint slice_from (n : nat) (s : string) : string :=
  match n, s with
  | S n', String _ s' => slice_from n' s'
  | _, _ => s
  end.

Fixpoint take (n : nat) (s : string) : string :=
  match n, s with
  | S n', String c s' => String c (take n' s')
  | _, _ => EmptyString
  end.

(** [s[:-n]] for [n > 0] *)
Definition slice_to_last (n : nat) (s : string) : string :=
  take (String.length s - n) s.

(** [needle in hay] *)
Fixpoint contains (hay needle : string) : bool :=
  String.prefix needle hay ||
  match hay with
  | String _ hay' => contains hay' needle
  | EmptyString => false
  end.

(** [c.lower()] for a code point below 256: A..Z and the Latin-1 capitals
    (all of 192..222 but the multiplication sign). *)
Definition lower_char (c : ascii) : ascii :=
  let n := nat_of_ascii c in
  if (Nat.leb 65 n && Nat.leb n 90)
     || (Nat.leb 192 n && Nat.leb n 222 && negb (Nat.eqb n 215))
  then ascii_of_nat (n + 32) else c.

Fixpoint lower (s : string) : string :=
  match s with
  | String c s' => String (lower_char c) (lower s')
  | EmptyString => EmptyString
  end.

(** The double quote, and a string with every apostrophe turned into one:
    the way JSON texts are written down below. *)
Definition dquote : ascii := "034"%char.

Fixpoint dq (s : string) : string :=
  match s with
  | String c s' => String (if Ascii.eqb c "'"%char then dquote else c) (dq s')
  | EmptyString => EmptyString
  end.

End PyStr.

(** ** Python values *)

(** The values the endpoint handles: what [json.loads] builds, and the
    objects of other classes that a driver puts in a record (an [ObjectId],
    a [datetime]), each with its class name and what [str] gives for it. *)
Inductive pyval : Type :=
| PNone
| PBool (b : bool)
| PInt (z : Z)
| PFloat (f : float)
| PStr (s : string)
| PList (l : list pyval)
| PDict (d : gmap string pyval)
| PObj (cls display : string).

(** A record of the store: a [dict] from field names to values. *)
Abbreviation doc := (gmap string pyval).

(** [bool(v)] *)
Definition truthy (v : pyval) : bool :=
  match v with
  | PNone => false
  | PBool b => b
  | PInt z => negb (Z.eqb z 0)
  | PFloat f => negb (PrimFloat.eqb f 0%float)
  | PStr s => negb (String.eqb s EmptyString)
  | PList l => match l with nil => false | _ => true end
  | PDict d => negb (bool_decide (d = ∅))
  | PObj _ _ => true
  end.

(** [type(v).__name__] *)
Definition type_name (v : pyval) : string :=
  match v with
  | PNone => "NoneType"
  | PBool _ => "bool"
  | PInt _ => "int"
  | PFloat _ => "float"
  | PStr _ => "str"
  | PList _ => "list"
  | PDict _ => "dict"
  | PObj cls _ => cls
  end.

(** [isinstance(v, dict)] *)
Definition is_dict (v : pyval) : bool :=
  match v with PDict _ => true | _ => false end.

(** [v == s] for a [str] literal [s] *)
Definition eq_str (v : option pyval) (s : string) : bool :=
  match v with Some (PStr t) => String.eqb t s | _ => false end.

(** ** Exceptions *)

Variant exn_class :=
| JSONDecodeError
| AttributeError
| KeyError
| ValidationError
| OtherException (name : string).

(** An instance of [Exception]: its class and [str(e)]. *)
Record exn := Exn { exn_cls : exn_class; exn_str : string }.

Definition is_JSONDecodeError (e : exn) : bool :=
  match exn_cls e with JSONDecodeError => true | _ => false end.

Variant outcome (A : Type) :=
| Ok (a : A)
| Raise (e : exn).
Arguments Ok {A} a.
Arguments Raise {A} e.

(** ** The process state and the calls that leave the process *)

Record GenerateContentConfig := {
  system_instruction : option string;
  temperature : float
}.

(** One call to a collaborator: [models.generate_content] of the model
    client, or [aggregate] on a collection of the store. *)
Variant event :=
| GenerateContent (model contents : string) (config : GenerateContentConfig)
| Aggregate (collection_name pipeline : pyval).

Variant Database := MongoDatabase.
Variant Client := GenaiClient (api_key : string).

(** The module's globals, and the calls made so far (oldest first). *)
Record world := {
  GEMINI_API_KEY : option string;
  db : option Database;
  genai_client : option Client;
  GEMINI_READY : bool;
  trace : list event
}.

(** What lies outside the module. The collaborators answer a call knowing
    the calls made before it, so a model may fail once and succeed later.
    [SYSTEM_PROMPT] is the module's static prompt text: the endpoint only
    passes it on. [json_dumps] is [json.dumps(_, default=str)], [py_repr]
    is [str] on floats, lists and dicts, and [validation_error] is the text
    of pydantic's error for a [response] that is no [str]. *)
Class Collaborators := {
  SYSTEM_PROMPT : string;
  genai_Client : string -> outcome Client;
  generate_content :
    list event -> string -> string -> GenerateContentConfig ->
    outcome (option string);
  aggregate : list event -> pyval -> pyval -> outcome (list doc);
  json_loads : string -> outcome pyval;
  json_dumps : pyval -> string;
  py_repr : pyval -> string;
  validation_error : pyval -> string
}.

(** ** The monad of the endpoint: state and exceptions *)

Definition M (A : Type) : Type := world -> outcome A * world.

Definition ret {A} (a : A) : M A := fun w => (Ok a, w).

Definition raise {A} (e : exn) : M A := fun w => (Raise e, w).

Definition bind {A B} (m : M A) (k : A -> M B) : M B :=
  fun w =>
    match m w with
    | (Ok a, w') => k a w'
    | (Raise e, w') => (Raise e, w')
    end.

Notation "'let*' x ':=' m 'in' k" := (bind m (fun x => k))
  (at level 10, x pattern, m at level 100, k at level 200).

(** [try: body except Exception as e: handler(e)]; a handler for one class
    raises the others again. *)
Definition try_except {A} (body : M A) (handler : exn -> M A) : M A :=
  fun w =>
    match body w with
    | (Ok a, w') => (Ok a, w')
    | (Raise e, w') => handler e w'
    end.

Definition read {A} (f : world -> A) : M A := fun w => (Ok (f w), w).

Definition lift {A} (o : outcome A) : M A := fun w => (o, w).

Definition log_call (ev : event) (w : world) : world :=
  {| GEMINI_API_KEY := GEMINI_API_KEY w;
     db := db w;
     genai_client := genai_client w;
     GEMINI_READY := GEMINI_READY w;
     trace := trace w ++ [ev] |}.

Section Service.
Context `{Collaborators}.

(** [genai_client.models.generate_content(model=.., contents=.., config=..)] *)
Definition models_generate_content
    (model contents : string) (config : GenerateContentConfig)
  : M (option string) :=
  fun w =>
    (generate_content (trace w) model contents config,
     log_call (GenerateContent model contents config) w).

(** [list(db[collection_name].aggregate(pipeline))] *)
Definition db_aggregate (collection_name pipeline : pyval) : M (list doc) :=
  fun w =>
    (aggregate (trace w) collection_name pipeline,
     log_call (Aggregate collection_name pipeline) w).

(** [response.text.strip()]: the text of a response may be [None]. *)
Definition text_strip (text : option string) : M string :=
  match text with
  | Some t => ret (PyStr.strip t)
  | None =>
      raise (Exn AttributeError "'NoneType' object has no attribute 'strip'")
  end.

(** [str(v)] *)
Definition py_str (v : pyval) : string :=
  match v with
  | PNone => "None"
  | PBool true => "True"
  | PBool false => "False"
  | PInt z => pretty z
  | PStr s => s
  | PObj _ display => display
  | PFloat _ | PList _ | PDict _ => py_repr v
  end.

(** [hasattr(v, '__str__')]: every object inherits [__str__]. *)
Definition hasattr_str (v : pyval) : bool := true.

(** [v.get(key)] *)
Definition py_get (v : pyval) (key : string) : M pyval :=
  match v with
  | PDict d => ret (default PNone (d !! key))
  | _ =>
      raise (Exn AttributeError
               ("'" +:+ type_name v +:+ "' object has no attribute 'get'"))
  end.

(** [d[key]] on a dict *)
Definition py_getitem (d : doc) (key : string) : M pyval :=
  match d !! key with
  | Some v => ret v
  | None => raise (Exn KeyError ("'" +:+ key +:+ "'"))
  end.

Record ChatRequest := { message : string }.

Record ChatResponse := { response : string; data : pyval }.

(** [ChatResponse(response=v, data=d)]: the field [response: str] takes a
    [str] only. *)
Definition ChatResponse_new (v : pyval) (d : pyval) : M ChatResponse :=
  match v with
  | PStr s => ret {| response := s; data := d |}
  | _ => raise (Exn ValidationError (validation_error v))
  end.

Definition models_to_try : list string :=
  [ "gemini-1.5-flash";
    "gemini-1.5-flash-8b";
    "gemini-2.0-flash";
    "gemini-2.0-flash-lite";
    "gemini-2.0-flash-exp";
    "gemini-1.5-pro" ].

Definition api_key_set (k : option string) : bool :=
  match k with
  | Some s => negb (String.eqb s EmptyString)
  | None => false
  end.

Definition initialize_gemini : M bool :=
  fun w =>
    if GEMINI_READY w && bool_decide (is_Some (genai_client w)) then (Ok true, w)
    else if negb (api_key_set (GEMINI_API_KEY w)) then (Ok false, w)
    else
      match genai_Client (default EmptyString (GEMINI_API_KEY w)) with
      | Ok c =>
          (Ok true,
           {| GEMINI_API_KEY := GEMINI_API_KEY w;
              db := db w;
              genai_client := Some c;
              GEMINI_READY := true;
              trace := trace w |})
      | Raise _ => (Ok false, w)
      end.

(** The three tests of the dispatch loop's handler (lines 454, 457, 460). *)
Definition is_quota (err_str : string) : bool :=
  PyStr.contains err_str "429"
  || PyStr.contains err_str "RESOURCE_EXHAUSTED"
  || PyStr.contains (PyStr.lower err_str) "quota".

Definition is_not_found (err_str : string) : bool :=
  PyStr.contains err_str "404" || PyStr.contains err_str "NOT_FOUND".

Definition is_invalid_argument (err_str : string) : bool :=
  PyStr.contains err_str "400" || PyStr.contains err_str "INVALID_ARGUMENT".

(** The loop of lines 435-464 over the models left to try. [Some] is the
    [break] with [ai_content] and [selected_model] set; [None] is the loop
    running out, [ai_content] still [None]. *)
Fixpoint dispatch_loop (request : ChatRequest) (models : list string)
  : M (option (string * string)) :=
  match models with
  | [] => ret None
  | model_name :: rest =>
      try_except
        (let* response :=
           models_generate_content model_name (message request)
             {| system_instruction := Some SYSTEM_PROMPT;
                temperature := 0.7%float |} in
         let* ai_content := text_strip response in
         ret (Some (ai_content, model_name)))
        (fun model_err =>
           let err_str := exn_str model_err in
           if is_quota err_str then dispatch_loop request rest
           else if is_not_found err_str then dispatch_loop request rest
           else if is_invalid_argument err_str then dispatch_loop request rest
           else raise model_err)
  end.

(** Lines 471-479: the clean-up of markdown code blocks. *)
Definition strip_fences (ai_content : string) : string :=
  let ai_content :=
    if PyStr.startswith ai_content "```json"
    then PyStr.slice_from 7 ai_content else ai_content in
  let ai_content :=
    if PyStr.startswith ai_content "```"
    then PyStr.slice_from 3 ai_content else ai_content in
  let ai_content :=
    if PyStr.endswith ai_content "```"
    then PyStr.slice_to_last 3 ai_content else ai_content in
  PyStr.strip ai_content.

(** Lines 502-505 for one record: every key of the record is assigned the
    [str] of its value. *)
Definition stringify_doc (d : doc) : doc :=
  foldl (fun acc kv =>
           if hasattr_str kv.2 then <[kv.1 := PStr (py_str kv.2)]> acc else acc)
        d (map_to_list d).

Definition nl : string := String "010"%char EmptyString.
Definition indent : string := "            ".
Definition quote : string := String PyStr.dquote EmptyString.

(** Lines 515-520. *)
Definition summary_prompt (request : ChatRequest) (results : list doc)
  : string :=
  nl +:+ indent +:+ "User Question: " +:+ quote +:+ message request +:+ quote
  +:+ nl +:+ indent +:+ "Database Results: "
  +:+ json_dumps (PList (PDict <$> firstn 10 results))
  +:+ " (showing first 10 items out of " +:+ pretty (length results)
  +:+ " total)" +:+ nl +:+ indent +:+ nl +:+ indent
  +:+ "Provide a clear, natural language summary. Include numbers and format currencies properly."
  +:+ nl +:+ indent.

(** Line 484: [isinstance(parsed_content, dict) and
    parsed_content.get("type") == "conversation"]; the dict when it holds. *)
Definition as_conversation (parsed_content : pyval) : option doc :=
  match parsed_content with
  | PDict d => if eq_str (d !! "type") "conversation" then Some d else None
  | _ => None
  end.

(** Lines 483-529: the body of the inner [try]. *)
Definition interpret
    (request : ChatRequest) (ai_content selected_model : string)
  : M ChatResponse :=
  let* parsed_content := lift (json_loads ai_content) in
  match as_conversation parsed_content with
  | Some d =>
    let* msg := py_getitem d "message" in
    ChatResponse_new msg PNone
  | None =>
    let* collection_name := py_get parsed_content "collection" in
    let* pipeline := py_get parsed_content "pipeline" in
    if negb (truthy collection_name) || negb (truthy pipeline) then
      ret {| response :=
               "Sorry, I couldn't understand how to query the database for that.";
             data := PNone |}
    else
      let* results := db_aggregate collection_name pipeline in
      let results := stringify_doc <$> results in
      if Nat.eqb (length results) 0 then
        ret {| response :=
                 "No results found for your query in the "
                 +:+ py_str collection_name +:+ " collection.";
               data := PDict {[ "query" := pipeline ]} |}
      else
        let* summary_response :=
          models_generate_content selected_model
            (summary_prompt request results)
            {| system_instruction := None; temperature := 0.3%float |} in
        let* summary := text_strip summary_response in
        ret {| response := summary; data := PList (PDict <$> results) |}
  end.

Definition quota_advisory : string :=
  "All Gemini models have exceeded their quota. Please try again later or check your API key quota at https://ai.dev/rate-limit.".

(** Lines 429-536: the outer [try] with its handler. *)
Definition chat_body (request : ChatRequest) : M ChatResponse :=
  try_except
    (let* selected := dispatch_loop request models_to_try in
     match selected with
     | None => ret {| response := quota_advisory; data := PNone |}
     | Some (ai_content, selected_model) =>
         let ai_content := strip_fences ai_content in
         try_except
           (interpret request ai_content selected_model)
           (fun e =>
              if is_JSONDecodeError e then
                ret {| response :=
                         "AI Error: Failed to parse response. Raw: "
                         +:+ ai_content;
                       data := PNone |}
              else raise e)
     end)
    (fun e =>
       ret {| response := "An error occurred: " +:+ exn_str e;
              data := PNone |}).

Definition no_database_advisory : string :=
  "The AI Banking Assistant is not connected to the database. Please check your DATABASE_URL environment variable.".

Definition not_initialized_advisory : string :=
  "The AI Banking Assistant is not correctly initialized. Please check your GEMINI_API_KEY.".

(** [chat_endpoint] (lines 412-536); the [print] calls are left out. *)
Definition chat_endpoint (request : ChatRequest) : M ChatResponse :=
  let* ready := read GEMINI_READY in
  let* _ := if negb ready then initialize_gemini else ret true in
  let* database := read db in
  let* ready := read GEMINI_READY in
  let* client := read genai_client in
  match database with
  | None => ret {| response := no_database_advisory; data := PNone |}
  | Some _ =>
      if negb ready || negb (bool_decide (is_Some client)) then
        ret {| response := not_initialized_advisory; data := PNone |}
      else chat_body request
  end.

(** The route [POST /chat]: the framework answers 200 with the returned
    [ChatResponse], and 500 when the handler raises. *)
Record http_response := {
  status_code : nat;
  body : option ChatResponse
}.

Definition post_chat (request : ChatRequest) (w : world)
  : http_response * world :=
  match chat_endpoint request w with
  | (Ok r, w') => ({| status_code := 200; body := Some r |}, w')
  | (Raise _, w') => ({| status_code := 500; body := None |}, w')
  end.

End Service.

(** ** A scripted deployment

    Concrete collaborators on which the endpoint runs: a decoder for the JSON
    texts without escapes, fractions and exponents, a store holding two
    accounts, and a model that answers by the question it is asked. *)
Module Fixture.

Definition is_json_space (c : ascii) : bool :=
  let n := nat_of_ascii c in
  Nat.eqb n 32 || Nat.eqb n 9 || Nat.eqb n 10 || Nat.eqb n 13.

Fixpoint skip_ws (s : string) : string :=
  match s with
  | String c s' => if is_json_space c then skip_ws s' else s
  | EmptyString => EmptyString
  end.

(** The characters of a string literal up to its closing quote, and what
    follows the quote. *)
Fixpoint scan_string (s : string) : option (string * string) :=
  match s with
  | EmptyString => None
  | String c s' =>
      if Ascii.eqb c PyStr.dquote then Some (EmptyString, s')
      else if Ascii.eqb c "\"%char || Nat.ltb (nat_of_ascii c) 32 then None
      else
        match scan_string s' with
        | Some (body, rest) => Some (String c body, rest)
        | None => None
        end
  end.

Definition digit_of (c : ascii) : option Z :=
  let n := nat_of_ascii c in
  if Nat.leb 48 n && Nat.leb n 57 then Some (Z.of_nat (n - 48)) else None.

Fixpoint scan_digits (acc : Z) (s : string) : Z * string :=
  match s with
  | String c s' =>
      match digit_of c with
      | Some d => scan_digits (10 * acc + d) s'
      | None => (acc, s)
      end
  | EmptyString => (acc, s)
  end.

(** An integer literal: no leading zero, no fraction, no exponent. *)
Definition scan_int (s : string) : option (Z * string) :=
  match s with
  | String c s' =>
      match digit_of c with
      | Some d =>
          let '(n, rest) := scan_digits d s' in
          if Z.eqb d 0 && negb (String.eqb rest s') then None
          else
            match rest with
            | String c' _ =>
                if Ascii.eqb c' "."%char || Ascii.eqb c' "e"%char
                   || Ascii.eqb c' "E"%char
                then None else Some (n, rest)
            | EmptyString => Some (n, rest)
            end
      | None => None
      end
  | EmptyString => None
  end.

Fixpoint scan_value (fuel : nat) (s : string) : option (pyval * string) :=
  match fuel with
  | O => None
  | S fuel =>
      match skip_ws s with
      | String "n" (String "u" (String "l" (String "l" rest))) =>
          Some (PNone, rest)
      | String "t" (String "r" (String "u" (String "e" rest))) =>
          Some (PBool true, rest)
      | String "f" (String "a" (String "l" (String "s" (String "e" rest)))) =>
          Some (PBool false, rest)
      | String "[" rest =>
          match skip_ws rest with
          | String "]" rest' => Some (PList [], rest')
          | _ => scan_elements fuel [] rest
          end
      | String "{" rest =>
          match skip_ws rest with
          | String "}" rest' => Some (PDict ∅, rest')
          | _ => scan_members fuel ∅ rest
          end
      | String "-" rest =>
          match scan_int rest with
          | Some (n, rest') => Some (PInt (- n), rest')
          | None => None
          end
      | String c rest =>
          if Ascii.eqb c PyStr.dquote then
            match scan_string rest with
            | Some (body, rest') => Some (PStr body, rest')
            | None => None
            end
          else
            match scan_int (String c rest) with
            | Some (n, rest') => Some (PInt n, rest')
            | None => None
            end
      | EmptyString => None
      end
  end
with scan_elements (fuel : nat) (acc : list pyval) (s : string)
  : option (pyval * string) :=
  match fuel with
  | O => None
  | S fuel =>
      match scan_value fuel s with
      | Some (v, rest) =>
          match skip_ws rest with
          | String "," rest' => scan_elements fuel (acc ++ [v]) rest'
          | String "]" rest' => Some (PList (acc ++ [v]), rest')
          | _ => None
          end
      | None => None
      end
  end
with scan_members (fuel : nat) (acc : doc) (s : string)
  : option (pyval * string) :=
  match fuel with
  | O => None
  | S fuel =>
      match skip_ws s with
      | String c rest =>
          if Ascii.eqb c PyStr.dquote then
            match scan_string rest with
            | Some (key, rest') =>
                match skip_ws rest' with
                | String ":" rest'' =>
                    match scan_value fuel rest'' with
                    | Some (v, rest3) =>
                        match skip_ws rest3 with
                        | String "," rest4 =>
                            scan_members fuel (<[key := v]> acc) rest4
                        | String "}" rest4 =>
                            Some (PDict (<[key := v]> acc), rest4)
                        | _ => None
                        end
                    | None => None
                    end
                | _ => None
                end
            | None => None
            end
          else None
      | EmptyString => None
      end
  end.

Definition decode_error : exn :=
  Exn JSONDecodeError "Expecting value: line 1 column 1 (char 0)".

Definition loads (s : string) : outcome pyval :=
  match scan_value (2 * String.length s + 2) s with
  | Some (v, rest) =>
      match skip_ws rest with
      | EmptyString => Ok v
      | _ => Raise decode_error
      end
  | None => Raise decode_error
  end.

(** The store: two accounts, every other collection empty. *)
Definition accounts : list doc :=
  [ {[ "_id" := PObj "ObjectId" "65a1f0c2e4b0a1b2c3d4e5f6";
       "accountNumber" := PStr "ACC-0001";
       "balance" := PInt 100 ]};
    {[ "_id" := PObj "ObjectId" "65a1f0c2e4b0a1b2c3d4e5f7";
       "accountNumber" := PStr "ACC-0002";
       "balance" := PInt 250 ]} ].

Definition collection (name : string) : list doc :=
  if String.eqb name "accounts" then accounts else [].

Definition operation_failure (text : string) : exn :=
  Exn (OtherException "OperationFailure") text.

Definition field_sum (field : string) (docs : list doc) : Z :=
  foldr (fun d acc =>
           match d !! field with Some (PInt z) => (z + acc)%Z | _ => acc end)
        0%Z docs.

(** The stages the store runs: [{"$limit": n}], and
    [{"$group": {"_id": null, out: {"$sum": "$field"}}}]. *)
Definition run_stage (docs : list doc) (stage : pyval) : outcome (list doc) :=
  match stage with
  | PDict s =>
      match s !! "$limit", s !! "$group" with
      | Some (PInt n), None =>
          if Z.ltb 0 n then Ok (firstn (Z.to_nat n) docs)
          else Raise (operation_failure "the limit must be positive")
      | None, Some (PDict g) =>
          match g !! "_id", map_to_list (delete "_id" g) with
          | Some PNone, [(out, PDict acc)] =>
              match acc !! "$sum" with
              | Some (PStr (String "$" field)) =>
                  match docs with
                  | [] => Ok []
                  | _ =>
                      Ok [ {[ "_id" := PNone;
                              out := PInt (field_sum field docs) ]} ]
                  end
              | _ => Raise (operation_failure "unknown group operator")
              end
          | _, _ => Raise (operation_failure "a group specification must include an _id")
          end
      | _, _ => Raise (operation_failure "Unrecognized pipeline stage name")
      end
  | _ => Raise (operation_failure "Each element of the 'pipeline' array must be an object")
  end.

Fixpoint run_pipeline (docs : list doc) (stages : list pyval)
  : outcome (list doc) :=
  match stages with
  | [] => Ok docs
  | stage :: stages' =>
      match run_stage docs stage with
      | Ok docs' => run_pipeline docs' stages'
      | Raise e => Raise e
      end
  end.

Definition run_aggregate (collection_name pipeline : pyval)
  : outcome (list doc) :=
  match collection_name, pipeline with
  | PStr name, PList stages => run_pipeline (collection name) stages
  | PStr _, _ =>
      Raise (Exn (OtherException "TypeError") "pipeline must be a list")
  | _, _ =>
      Raise (Exn (OtherException "TypeError") "name must be an instance of str")
  end.

(** What the model writes for a question. *)
Definition total_balance_directive : string :=
  PyStr.dq "{'collection':'accounts','pipeline':[{'$group':{'_id':null,'totalBalance':{'$sum':'$balance'}}}]}".

Definition answer (question : string) : string :=
  if String.eqb question "hello" then
    PyStr.dq "{'type':'conversation','message':'Hi'}"
  else if String.eqb question "total balance" then
    "```json" +:+ nl +:+ total_balance_directive +:+ nl +:+ "```"
  else if String.eqb question "all loans" then
    PyStr.dq "{'collection':'loans','pipeline':[{'$limit':5}]}"
  else if String.eqb question "accounts?" then
    PyStr.dq "{'collection':'accounts'}"
  else if String.eqb question "who are you" then
    PyStr.dq "{'type':'conversation'}"
  else if String.eqb question "numbers" then
    "[1, 2]"
  else "I am not sure what you mean.".

Definition quota_error : exn :=
  Exn (OtherException "ClientError")
      "429 RESOURCE_EXHAUSTED. You exceeded your current quota.".

Definition summary_text : string :=
  "The total balance across all accounts is 350.".

Definition dumps_field (kv : string * pyval) : string :=
  quote +:+ kv.1 +:+ quote +:+ ": " +:+
  match kv.2 with
  | PStr s => quote +:+ s +:+ quote
  | _ => "null"
  end.

Fixpoint join (sep : string) (l : list string) : string :=
  match l with
  | [] => EmptyString
  | [x] => x
  | x :: l' => x +:+ sep +:+ join sep l'
  end.

(** [json.dumps] on a list of records of strings (fields in the order of
    the map, no escapes). *)
Definition dumps (v : pyval) : string :=
  match v with
  | PList l =>
      "[" +:+ join ", "
                (map (fun d =>
                        match d with
                        | PDict d =>
                            "{" +:+ join ", " (dumps_field <$> map_to_list d)
                            +:+ "}"
                        | _ => "null"
                        end) l)
      +:+ "]"
  | _ => "null"
  end.

(** A deployment in which the models [down] answer with a quota error and
    the others with [answer]; the summary call answers [summary_text]. *)
Definition deployment (down : list string) : Collaborators := {|
  SYSTEM_PROMPT := "You are an intelligent assistant for a banking application admin.";
  genai_Client := fun key => Ok (GenaiClient key);
  generate_content := fun _ model contents config =>
    match system_instruction config with
    | Some _ =>
        if bool_decide (model ∈ down) then Raise quota_error
        else Ok (Some (answer contents))
    | None => Ok (Some summary_text)
    end;
  aggregate := fun _ => run_aggregate;
  json_loads := loads;
  json_dumps := dumps;
  py_repr := fun v => "<" +:+ type_name v +:+ ">";
  validation_error := fun v =>
    "1 validation error for ChatResponse: response: Input should be a valid string"
|}.

(** The process after a start with both connections made. *)
Definition started : world := {|
  GEMINI_API_KEY := Some "key";
  db := Some MongoDatabase;
  genai_client := Some (GenaiClient "key");
  GEMINI_READY := true;
  trace := []
|}.

End Fixture.

(** ** Facts on the [str] methods *)
Module PyStrFacts.
Import PyStr.

Lemma app_cons c s t : String c s +:+ t = String c (s +:+ t).
Proof. reflexivity. Qed.

Lemma app_nil_l s : EmptyString +:+ s = s.
Proof. reflexivity. Qed.

Lemma app_nil_r s : s +:+ EmptyString = s.
Proof. induction s as [|c s IH]; [reflexivity|]. by rewrite app_cons, IH. Qed.

Lemma app_assoc s t u : (s +:+ t) +:+ u = s +:+ t +:+ u.
Proof. induction s as [|c s IH]; [reflexivity|]. by rewrite !app_cons, IH. Qed.

Lemma app_not_nil_r s t : t ≠ EmptyString → s +:+ t ≠ EmptyString.
Proof. destruct s; [done|]. by rewrite app_cons. Qed.

Lemma length_app s t :
  String.length (s +:+ t) = String.length s + String.length t.
Proof.
  induction s as [|c s IH]; [reflexivity|].
  rewrite app_cons. simpl. by rewrite IH.
Qed.

Lemma prefix_cons a p b s :
  String.prefix (String a p) (String b s) = Ascii.eqb a b && String.prefix p s.
Proof.
  cbn [String.prefix]. destruct (ascii_dec a b) as [->|Hne].
  - by rewrite Ascii.eqb_refl.
  - apply Ascii.eqb_neq in Hne. by rewrite Hne.
Qed.

Lemma prefix_nil s : String.prefix EmptyString s = true.
Proof. by destruct s. Qed.

Lemma prefix_app p s : String.prefix p (p +:+ s) = true.
Proof.
  induction p as [|c p IH]; [apply prefix_nil|].
  by rewrite app_cons, prefix_cons, Ascii.eqb_refl, IH.
Qed.

(** Case analysis on the leading characters a [startswith] test reads. *)
Ltac head_cases :=
  unfold startswith;
  repeat first
    [ progress rewrite ?app_cons, ?app_nil_l, ?prefix_cons, ?prefix_nil
    | match goal with
      | |- context [Ascii.eqb ?a ?c] =>
          destruct (Ascii.eqb_spec a c); subst; cbn [andb]
      end ].

Lemma slice_from_app p s : slice_from (String.length p) (p +:+ s) = s.
Proof.
  induction p as [|c p IH]; [by destruct s|]. by rewrite app_cons.
Qed.

Lemma take_app s t : take (String.length s) (s +:+ t) = s.
Proof.
  induction s as [|c s IH]; [by destruct t|].
  rewrite app_cons. simpl. by rewrite IH.
Qed.

Lemma slice_to_last_app s p : slice_to_last (String.length p) (s +:+ p) = s.
Proof.
  unfold slice_to_last. rewrite length_app.
  replace (String.length s + String.length p - String.length p)
    with (String.length s) by lia.
  apply take_app.
Qed.

Lemma eqb_refl s : String.eqb s s = true.
Proof. by apply String.eqb_eq. Qed.

Lemma endswith_refl p : endswith p p = true.
Proof. destruct p; simpl; [done|]. by rewrite Ascii.eqb_refl, eqb_refl. Qed.

Lemma endswith_app s p : endswith (s +:+ p) p = true.
Proof.
  induction s as [|c s IH]; [apply endswith_refl|].
  rewrite app_cons. simpl. rewrite IH. apply orb_true_r.
Qed.

Lemma contains_prefix hay needle :
  String.prefix needle hay = true → contains hay needle = true.
Proof. intros Hp. destruct hay; cbn [contains]; by rewrite Hp. Qed.

Lemma contains_app a x b : contains (a +:+ x +:+ b) x = true.
Proof.
  induction a as [|c a IH].
  - change (contains (x +:+ b) x = true). apply contains_prefix, prefix_app.
  - rewrite app_cons. simpl. rewrite IH. apply orb_true_r.
Qed.

(** *** Stripping *)

Lemma lstrip_space_app ws s :
  all_space ws = true → lstrip (ws +:+ s) = lstrip s.
Proof.
  induction ws as [|c ws IH]; [done|].
  rewrite app_cons. simpl. intros [Hc Hws]%andb_true_iff.
  rewrite Hc. auto.
Qed.

Lemma rstrip_space ws : all_space ws = true → rstrip ws = EmptyString.
Proof.
  induction ws as [|c ws IH]; [done|].
  simpl. intros [Hc Hws]%andb_true_iff. by rewrite IH, Hc.
Qed.

Lemma rstrip_app_space s ws :
  all_space ws = true → rstrip (s +:+ ws) = rstrip s.
Proof.
  intros Hws. induction s as [|c s IH].
  - by apply rstrip_space.
  - rewrite app_cons. simpl. by rewrite IH.
Qed.

Lemma rstrip_cons c s :
  isspace c = false → rstrip (String c s) = String c (rstrip s).
Proof. intros Hc. simpl. destruct (rstrip s); by rewrite ?Hc. Qed.

Lemma rstrip_app_fixed s t :
  rstrip t = t → t ≠ EmptyString → rstrip (s +:+ t) = s +:+ t.
Proof.
  intros Ht Hne. induction s as [|c s IH]; [done|].
  rewrite app_cons. simpl. rewrite IH.
  pose proof (app_not_nil_r s t Hne). by destruct (s +:+ t).
Qed.

Lemma lstrip_idem s : lstrip (lstrip s) = lstrip s.
Proof.
  induction s as [|c s IH]; [done|].
  simpl. destruct (isspace c) eqn:Hc; [done|]. simpl. by rewrite Hc.
Qed.

Lemma rstrip_cons_fixed c s :
  rstrip (String c s) = String c s → isspace c = true → rstrip s = s.
Proof.
  simpl. destruct (rstrip s) eqn:Hr.
  - intros Heq Hc. by rewrite Hc in Heq.
  - intros Heq _. congruence.
Qed.

Lemma rstrip_lstrip_fixed s : rstrip s = s → rstrip (lstrip s) = lstrip s.
Proof.
  induction s as [|c s IH]; [done|].
  intros Hfix. simpl. destruct (isspace c) eqn:Hc; [|done].
  apply IH. by eapply rstrip_cons_fixed.
Qed.

Lemma rstrip_idem s : rstrip (rstrip s) = rstrip s.
Proof.
  induction s as [|c s IH]; [done|].
  simpl. destruct (rstrip s) eqn:Hr.
  - destruct (isspace c) eqn:Hc; simpl; by rewrite ?Hc.
  - simpl in *. by rewrite IH.
Qed.

Lemma strip_idem s : strip (strip s) = strip s.
Proof.
  unfold strip.
  rewrite (rstrip_lstrip_fixed (rstrip s)) by apply rstrip_idem.
  apply lstrip_idem.
Qed.

(** Whitespace around a text is stripped with the text's own. *)
Lemma strip_space_app ws1 s ws2 :
  all_space ws1 = true → all_space ws2 = true →
  strip (ws1 +:+ s +:+ ws2) = strip s.
Proof.
  intros H1 H2. unfold strip.
  rewrite <- app_assoc, rstrip_app_space by done.
  revert H1. induction ws1 as [|c ws IH]; [done|].
  rewrite app_cons. simpl. intros [Hc Hws]%andb_true_iff.
  destruct (rstrip (ws +:+ s)) eqn:Hr.
  - rewrite Hc. by apply IH.
  - simpl. rewrite Hc. by apply IH.
Qed.

End PyStrFacts.

(** ** The clean-up of code fences *)
Section Fences.
Context `{Collaborators}.
Import PyStr PyStrFacts.

Definition fence : string := "```".

(** A text that is itself [lstrip]- and [rstrip]-fixed keeps the whitespace
    around it out of [strip]. *)
Lemma strip_core ws1 core ws2 :
  all_space ws1 = true → all_space ws2 = true →
  lstrip core = core → rstrip core = core →
  strip (ws1 +:+ core +:+ ws2) = core.
Proof.
  intros H1 H2 Hl Hr. rewrite strip_space_app by done.
  unfold strip. by rewrite Hr, Hl.
Qed.

Lemma strip_fenced ws1 (json : bool) inner ws2 :
  all_space ws1 = true → all_space ws2 = true →
  strip (ws1 +:+ ((if json then "```json" else fence) +:+ inner +:+ fence)
         +:+ ws2)
  = (if json then "```json" else fence) +:+ inner +:+ fence.
Proof.
  intros H1 H2. apply strip_core; [done|done|by destruct json|].
  rewrite <- app_assoc. by apply rstrip_app_fixed.
Qed.

Lemma startswith_fence_json t :
  startswith t fence = false → startswith t "```json" = false.
Proof.
  destruct t as [|c1 [|c2 [|c3 r]]]; try done; unfold fence; head_cases; done.
Qed.

(** A text [t] with no fence of its own goes through the clean-up
    unchanged, up to [strip]. *)
Lemma strip_fences_unfenced t :
  startswith t fence = false → endswith t fence = false →
  strip_fences t = strip t.
Proof.
  intros Hs He. unfold strip_fences.
  rewrite (startswith_fence_json t Hs). fold fence. by rewrite Hs, He.
Qed.

(** When the closing fence makes up (part of) a fence at the start, the
    inner text is at most two backquotes. *)
Lemma short_inner inner :
  startswith (inner +:+ fence) fence = true →
  startswith inner fence = false →
  inner = EmptyString ∨ inner = "`" ∨ inner = "``".
Proof.
  destruct inner as [|c1 [|c2 [|c3 r]]]; auto.
  - unfold fence at 1 2. head_cases; auto; done.
  - unfold fence at 1 2. head_cases; auto; done.
  - unfold fence. head_cases; congruence.
Qed.

Lemma json_after_fence inner :
  startswith inner "json" = false →
  startswith (fence +:+ inner +:+ fence) "```json" = false.
Proof.
  unfold fence.
  destruct inner as [|c1 [|c2 [|c3 [|c4 r]]]]; head_cases; done.
Qed.

Lemma slice_closing_fence inner : slice_to_last 3 (inner +:+ fence) = inner.
Proof. exact (slice_to_last_app inner fence). Qed.

Lemma strip_fences_json inner :
  startswith inner fence = false →
  strip_fences ("```json" +:+ inner +:+ fence) = strip inner.
Proof.
  intros Hno.
  assert (startswith ("```json" +:+ inner +:+ fence) "```json" = true) as Ha
    by apply prefix_app.
  unfold strip_fences. rewrite Ha.
  change (slice_from 7 ("```json" +:+ inner +:+ fence))
    with (inner +:+ fence).
  fold fence.
  destruct (startswith (inner +:+ fence) fence) eqn:Hb.
  - by destruct (short_inner inner Hb Hno) as [->|[->| ->]].
  - rewrite endswith_app.
    by rewrite slice_closing_fence.
Qed.

Lemma strip_fences_bare inner :
  startswith inner "json" = false →
  strip_fences (fence +:+ inner +:+ fence) = strip inner.
Proof.
  intros Hj.
  assert (startswith (fence +:+ inner +:+ fence) fence = true) as Hb
    by apply prefix_app.
  unfold strip_fences.
  rewrite (json_after_fence inner Hj). fold fence. rewrite Hb.
  change (slice_from 3 (fence +:+ inner +:+ fence)) with (inner +:+ fence).
  rewrite endswith_app.
  by rewrite slice_closing_fence.
Qed.

(** C4 (as amended). A model output wrapped in code fences (whitespace, an
    opening "```json" or "```", the inner text, a closing "```",
    whitespace), where the inner text does not go on with a fence right
    after "```json", nor with "json" right after a bare "```", is cleaned
    to exactly the inner text (stripped), so [json.loads] is given the same
    text as for the inner text alone; and when the stripped inner text has
    no fence at either end, the unwrapped output is cleaned to that same
    text. *)
Theorem fenced_output_parses_as_inner ws1 (json : bool) inner ws2 :
  all_space ws1 = true → all_space ws2 = true →
  startswith inner (if json then fence else "json") = false →
  let opening := if json then "```json" else fence in
  let wrapped := strip (ws1 +:+ (opening +:+ inner +:+ fence) +:+ ws2) in
  strip_fences wrapped = strip inner
  ∧ json_loads (strip_fences wrapped) = json_loads (strip inner)
  ∧ (startswith (strip inner) fence = false →
     endswith (strip inner) fence = false →
     strip_fences (strip inner) = strip inner
     ∧ json_loads (strip_fences wrapped)
       = json_loads (strip_fences (strip inner))).
Proof.
  intros H1 H2 Hj opening wrapped.
  assert (strip_fences wrapped = strip inner) as Hw.
  { unfold wrapped, opening. rewrite strip_fenced by done.
    destruct json; [by apply strip_fences_json|by apply strip_fences_bare]. }
  split_and!; [done|by rewrite Hw|].
  intros Hs He.
  assert (strip_fences (strip inner) = strip inner) as Hu.
  { rewrite strip_fences_unfenced by done. apply strip_idem. }
  by rewrite Hw, Hu.
Qed.

End Fences.

(** ** The dispatcher *)
Section Dispatcher.
Context `{Collaborators}.

(** The configuration of the dispatcher's calls (lines 441-444). *)
Definition dispatch_config : GenerateContentConfig :=
  {| system_instruction := Some SYSTEM_PROMPT; temperature := 0.7%float |}.

Definition dispatch_call (request : ChatRequest) (model_name : string)
  : event :=
  GenerateContent model_name (message request) dispatch_config.

(** The outcome of one pass through the [try] of the loop for [model_name],
    the calls in [h] having been made: the stripped text, or the exception
    the handler receives. *)
Definition attempt (request : ChatRequest) (h : list event)
    (model_name : string) : outcome string :=
  match generate_content h model_name (message request) dispatch_config with
  | Ok (Some t) => Ok (PyStr.strip t)
  | Ok None =>
      Raise (Exn AttributeError "'NoneType' object has no attribute 'strip'")
  | Raise e => Raise e
  end.

(** The errors after which the loop goes on to the next model. *)
Definition retryable (e : exn) : bool :=
  is_quota (exn_str e) || is_not_found (exn_str e)
  || is_invalid_argument (exn_str e).

(** Each of [models], tried in turn after the calls in [h], fails with a
    retryable error. *)
Fixpoint all_retryable (request : ChatRequest) (h : list event)
    (models : list string) : Prop :=
  match models with
  | [] => True
  | model_name :: rest =>
      (∃ e, attempt request h model_name = Raise e ∧ retryable e = true)
      ∧ all_retryable request (h ++ [dispatch_call request model_name]) rest
  end.

Definition is_db_call (ev : event) : bool :=
  match ev with Aggregate _ _ => true | GenerateContent _ _ _ => false end.

(** The number of calls to the store among [events]. *)
Definition db_calls (events : list event) : nat :=
  length (filter is_db_call events).

Lemma dispatch_loop_cons request model_name rest w :
  dispatch_loop request (model_name :: rest) w =
  match attempt request (trace w) model_name with
  | Ok ai_content =>
      (Ok (Some (ai_content, model_name)),
       log_call (dispatch_call request model_name) w)
  | Raise e =>
      if retryable e
      then dispatch_loop request rest
             (log_call (dispatch_call request model_name) w)
      else (Raise e, log_call (dispatch_call request model_name) w)
  end.
Proof.
  cbn [dispatch_loop]. unfold try_except, bind, models_generate_content.
  unfold attempt, retryable, dispatch_call, dispatch_config.
  destruct (generate_content _ _ _ _) as [[t|]|e]; cbn; [done..|].
  by destruct (is_quota _), (is_not_found _), (is_invalid_argument _).
Qed.

Lemma all_retryable_snoc request h models model_name :
  all_retryable request h models →
  (∃ e, attempt request (h ++ (dispatch_call request <$> models)) model_name
        = Raise e ∧ retryable e = true) →
  all_retryable request h (models ++ [model_name]).
Proof.
  revert h. induction models as [|m models IH]; intros h.
  - cbn. rewrite app_nil_r. auto.
  - cbn [all_retryable fmap list_fmap app]. intros [Hm Hrest] Hlast.
    split; [done|]. apply IH; [done|].
    by rewrite <- app_assoc.
Qed.

(** What a run of the loop amounts to: the models [tried] are a prefix of
    the candidates, called once each and in order; all but the last failed
    with a retryable error; the last one decides the result. *)
Definition dispatch_result (request : ChatRequest) (h : list event)
    (tried rest : list string) (r : outcome (option (string * string)))
  : Prop :=
  match r with
  | Ok None => rest = [] ∧ all_retryable request h tried
  | Ok (Some (ai_content, selected_model)) =>
      ∃ before : list string,
        tried = before ++ [selected_model]
        ∧ all_retryable request h before
        ∧ attempt request (h ++ (dispatch_call request <$> before))
            selected_model = Ok ai_content
  | Raise e =>
      ∃ (before : list string) model_name,
        tried = before ++ [model_name]
        ∧ all_retryable request h before
        ∧ attempt request (h ++ (dispatch_call request <$> before))
            model_name = Raise e
        ∧ retryable e = false
  end.

Lemma dispatch_loop_spec request models w :
  ∃ tried rest : list string,
    models = tried ++ rest
    ∧ (dispatch_loop request models w).2 =
      foldl (fun w m => log_call (dispatch_call request m) w) w tried
    ∧ dispatch_result request (trace w) tried rest
        (dispatch_loop request models w).1.
Proof.
  revert w. induction models as [|m models IH]; intros w.
  - exists [], []. by cbn.
  - rewrite dispatch_loop_cons.
    destruct (attempt request (trace w) m) as [text|e] eqn:Hm.
    + exists [m], models. cbn. split_and!; [done..|].
      exists []. cbn. by rewrite app_nil_r.
    + destruct (retryable e) eqn:He.
      * destruct (IH (log_call (dispatch_call request m) w))
          as (tried & rest & -> & Hw & Hr).
        exists (m :: tried), rest. split_and!; [done..|].
        revert Hr. cbn [log_call trace].
        destruct (dispatch_loop _ _ _).1 as [[[text m']|]|e']; cbn.
        -- intros (before & -> & Hb & Ha). exists (m :: before).
           cbn. rewrite <- app_assoc in Ha. eauto 10.
        -- intros [-> Hb]. eauto 10.
        -- intros (before & m' & -> & Hb & Ha & He').
           exists (m :: before), m'.
           cbn. rewrite <- app_assoc in Ha. eauto 10.
      * exists [m], models. cbn. split_and!; [done..|].
        exists [], m. cbn. by rewrite app_nil_r.
Qed.

Lemma trace_foldl_log request tried w :
  trace (foldl (fun w m => log_call (dispatch_call request m) w) w tried)
  = trace w ++ (dispatch_call request <$> tried).
Proof.
  revert w. induction tried as [|m tried IH]; intros w; cbn.
  - by rewrite app_nil_r.
  - rewrite IH. cbn. by rewrite <- app_assoc.
Qed.

(** *** The retry signals, as texts *)

(** [marker] stands somewhere in [text]. *)
Definition occurs_in (marker text : string) : Prop :=
  ∃ before after, text = before +:+ marker +:+ after.

(** Quota exhaustion: 429, RESOURCE_EXHAUSTED, or "quota" in any case. *)
Definition quota_signal (text : string) : Prop :=
  occurs_in "429" text ∨ occurs_in "RESOURCE_EXHAUSTED" text
  ∨ occurs_in "quota" (PyStr.lower text).

(** Model not found: 404 or NOT_FOUND. *)
Definition not_found_signal (text : string) : Prop :=
  occurs_in "404" text ∨ occurs_in "NOT_FOUND" text.

(** Invalid argument: 400 or INVALID_ARGUMENT. *)
Definition invalid_argument_signal (text : string) : Prop :=
  occurs_in "400" text ∨ occurs_in "INVALID_ARGUMENT" text.

Definition retry_signal (text : string) : Prop :=
  quota_signal text ∨ not_found_signal text ∨ invalid_argument_signal text.

Lemma prefix_occurs p s :
  String.prefix p s = true → ∃ after, s = p +:+ after.
Proof.
  revert s. induction p as [|a p IH]; intros s; [by exists s|].
  destruct s as [|b s]; [done|].
  rewrite PyStrFacts.prefix_cons.
  intros [Hab Hp]%andb_true_iff. apply Ascii.eqb_eq in Hab as ->.
  destruct (IH s Hp) as [after ->]. by exists after.
Qed.

Lemma contains_occurs text marker :
  PyStr.contains text marker = true ↔ occurs_in marker text.
Proof.
  split.
  - induction text as [|c text IH]; cbn [PyStr.contains].
    + rewrite orb_false_r. intros [after Ha]%prefix_occurs.
      by exists EmptyString, after.
    + intros [Hp|Hc]%orb_true_iff.
      * apply prefix_occurs in Hp as [after Ha].
        by exists EmptyString, after.
      * destruct (IH Hc) as (before & after & ->).
        by exists (String c before), after.
  - intros (before & after & ->). apply PyStrFacts.contains_app.
Qed.

Lemma is_quota_signal text : is_quota text = true ↔ quota_signal text.
Proof.
  unfold is_quota, quota_signal.
  rewrite !orb_true_iff, !contains_occurs. tauto.
Qed.

Lemma retryable_signal e : retryable e = true ↔ retry_signal (exn_str e).
Proof.
  unfold retryable, retry_signal, not_found_signal, invalid_argument_signal.
  unfold is_not_found, is_invalid_argument.
  rewrite !orb_true_iff, is_quota_signal, !contains_occurs. tauto.
Qed.

(** C2. The dispatcher calls the candidates one after the other, each at
    most once and in the order of the list; it goes on to the next one
    after a quota, not-found or invalid-argument error, stops at the first
    success with that model's (stripped) text and its identifier, and on
    any other error stops and raises that error. In particular, on
    [[A; B; C]] where A fails with a quota signal and B succeeds, it
    returns B's text with the identifier B after exactly two calls: C is
    never called. The errors it goes on after are exactly those whose text
    holds 429, RESOURCE_EXHAUSTED or "quota" (in any case), 404 or
    NOT_FOUND, 400 or INVALID_ARGUMENT: after such an error the loop
    continues with the candidates left, and an error whose text holds none
    of them is raised at once, with no further candidate called. *)
Theorem dispatcher_falls_back_in_order :
  (∀ request models w,
     ∃ tried rest : list string,
       models = tried ++ rest
       ∧ trace (dispatch_loop request models w).2
         = trace w ++ (dispatch_call request <$> tried)
       ∧ dispatch_result request (trace w) tried rest
           (dispatch_loop request models w).1)
  ∧ (∀ request A B C w eA t,
       generate_content (trace w) A (message request) dispatch_config
       = Raise eA →
       quota_signal (exn_str eA) →
       generate_content (trace w ++ [dispatch_call request A]) B
         (message request) dispatch_config = Ok (Some t) →
       (dispatch_loop request [A; B; C] w).1 = Ok (Some (PyStr.strip t, B))
       ∧ trace (dispatch_loop request [A; B; C] w).2
         = trace w ++ [dispatch_call request A; dispatch_call request B])
  ∧ (∀ e, retryable e = true ↔ retry_signal (exn_str e))
  ∧ (∀ text, is_quota text = true ↔ quota_signal text)
  ∧ (∀ request model_name rest w e,
       generate_content (trace w) model_name (message request)
         dispatch_config = Raise e →
       retry_signal (exn_str e) →
       dispatch_loop request (model_name :: rest) w
       = dispatch_loop request rest
           (log_call (dispatch_call request model_name) w))
  ∧ (∀ request model_name rest w e,
       generate_content (trace w) model_name (message request)
         dispatch_config = Raise e →
       ¬ retry_signal (exn_str e) →
       dispatch_loop request (model_name :: rest) w
       = (Raise e, log_call (dispatch_call request model_name) w)
       ∧ trace (dispatch_loop request (model_name :: rest) w).2
         = trace w ++ [dispatch_call request model_name]).
Proof.
  split_and!.
  - intros request models w.
    destruct (dispatch_loop_spec request models w)
      as (tried & rest & Hm & Hw & Hr).
    exists tried, rest. split_and!; [done| |done].
    rewrite Hw. apply trace_foldl_log.
  - intros request A B C w eA t HA Hq%is_quota_signal HB.
    assert (dispatch_loop request [A; B; C] w =
            (Ok (Some (PyStr.strip t, B)),
             log_call (dispatch_call request B)
               (log_call (dispatch_call request A) w))) as ->.
    { rewrite !dispatch_loop_cons. unfold attempt at 1. rewrite HA.
      unfold retryable. rewrite Hq. cbn [orb].
      unfold attempt. cbn [log_call trace]. by rewrite HB. }
    cbn. by rewrite <- app_assoc.
  - apply retryable_signal.
  - apply is_quota_signal.
  - intros request model_name rest w e He Hs.
    apply retryable_signal in Hs.
    rewrite dispatch_loop_cons. unfold attempt. by rewrite He, Hs.
  - intros request model_name rest w e He Hs.
    assert (retryable e = false) as Hr.
    { destruct (retryable e) eqn:Hr; [|done].
      by apply retryable_signal in Hr. }
    rewrite dispatch_loop_cons. unfold attempt. by rewrite He, Hr.
Qed.

End Dispatcher.

(** ** The endpoint *)
Section Endpoint.
Context `{Collaborators}.

(** The world after the lazy initialisation of lines 416-417. *)
Definition after_init (w : world) : world :=
  if GEMINI_READY w then w else (initialize_gemini w).2.

(** Both connections are there once the lazy initialisation has run. *)
Definition serving (w : world) : bool :=
  bool_decide (is_Some (db w))
  && GEMINI_READY (after_init w)
  && bool_decide (is_Some (genai_client (after_init w))).

(** The dispatcher of a serving process selected [selected_model], whose
    stripped output is [ai_content], and left the world [w1]. *)
Definition dispatched (request : ChatRequest) (w : world)
    (ai_content selected_model : string) (w1 : world) : Prop :=
  serving w = true
  ∧ dispatch_loop request models_to_try (after_init w)
    = (Ok (Some (ai_content, selected_model)), w1).

(** The collection and the pipeline of a parsed output that is a query
    directive: a dict, not a conversation, with both fields truthy
    (lines 484-490). *)
Definition directive (parsed_content : pyval) : option (pyval * pyval) :=
  match parsed_content with
  | PDict d =>
      if eq_str (d !! "type") "conversation" then None
      else
        let collection_name := default PNone (d !! "collection") in
        let pipeline := default PNone (d !! "pipeline") in
        if truthy collection_name && truthy pipeline
        then Some (collection_name, pipeline) else None
  | _ => None
  end.

Definition parse_advisory (ai_content : string) : string :=
  "AI Error: Failed to parse response. Raw: " +:+ ai_content.

Definition error_advisory (e : exn) : string :=
  "An error occurred: " +:+ exn_str e.

Definition intent_advisory : string :=
  "Sorry, I couldn't understand how to query the database for that.".

Definition no_results_advisory (collection_name : pyval) : string :=
  "No results found for your query in the " +:+ py_str collection_name
  +:+ " collection.".

(** The configuration of the summary call (line 525). *)
Definition summary_config : GenerateContentConfig :=
  {| system_instruction := None; temperature := 0.3%float |}.

Definition advisory (text : string) : ChatResponse :=
  {| response := text; data := PNone |}.

(** What the two handlers of [chat_body] make of the inner [try]. *)
Definition handled (ai_content : string) (r : outcome ChatResponse * world)
  : outcome ChatResponse * world :=
  match r with
  | (Ok a, w) => (Ok a, w)
  | (Raise e, w) =>
      (Ok (advisory (if is_JSONDecodeError e then parse_advisory ai_content
                     else error_advisory e)), w)
  end.

Lemma initialize_gemini_returns w :
  ∃ b, initialize_gemini w = (Ok b, (initialize_gemini w).2).
Proof.
  unfold initialize_gemini.
  destruct (_ && _); [by eexists|].
  destruct (negb _); [by eexists|].
  destruct (genai_Client _); by eexists.
Qed.

Lemma initialize_gemini_keeps w :
  trace (initialize_gemini w).2 = trace w
  ∧ db (initialize_gemini w).2 = db w.
Proof.
  unfold initialize_gemini.
  destruct (_ && _); [done|]. destruct (negb _); [done|].
  by destruct (genai_Client _).
Qed.

Lemma after_init_keeps w :
  trace (after_init w) = trace w ∧ db (after_init w) = db w.
Proof.
  unfold after_init. destruct (GEMINI_READY w); [done|].
  apply initialize_gemini_keeps.
Qed.

(** The endpoint, by the three cases of lines 419-427. *)
Lemma chat_endpoint_cases request w :
  chat_endpoint request w =
  match db w with
  | None => (Ok (advisory no_database_advisory), after_init w)
  | Some _ =>
      if serving w then chat_body request (after_init w)
      else (Ok (advisory not_initialized_advisory), after_init w)
  end.
Proof.
  unfold serving. destruct (after_init_keeps w) as [_ Hdb].
  unfold chat_endpoint, bind, read, ret, after_init in *.
  destruct (GEMINI_READY w) eqn:Hready; cbn [negb].
  - rewrite Hready. destruct (db w); [|done]. cbn.
    by destruct (bool_decide _).
  - destruct (initialize_gemini_returns w) as [b Hb]. rewrite Hb.
    rewrite Hdb. destruct (db w); [|done]. cbn.
    clear Hb Hdb. generalize (initialize_gemini w).2. intros w'.
    by destruct (GEMINI_READY w'),
         (bool_decide (is_Some (genai_client w'))).
Qed.

Lemma chat_body_cases request w :
  chat_body request w =
  match dispatch_loop request models_to_try w with
  | (Ok None, w1) => (Ok (advisory quota_advisory), w1)
  | (Ok (Some (ai_content, selected_model)), w1) =>
      handled (strip_fences ai_content)
        (interpret request (strip_fences ai_content) selected_model w1)
  | (Raise e, w1) => (Ok (advisory (error_advisory e)), w1)
  end.
Proof.
  unfold chat_body, try_except, bind, ret, raise, handled.
  destruct (dispatch_loop _ _ _) as [[[[ai_content m]|]|e] w1]; [|done..].
  destruct (interpret _ _ _ _) as [[r|e] w2]; [done|].
  by destruct (is_JSONDecodeError e).
Qed.

Lemma chat_endpoint_dispatched request w ai_content selected_model w1 :
  dispatched request w ai_content selected_model w1 →
  chat_endpoint request w =
  handled (strip_fences ai_content)
    (interpret request (strip_fences ai_content) selected_model w1).
Proof.
  intros [Hs Hd]. rewrite chat_endpoint_cases, Hs.
  unfold serving in Hs. destruct (db w); [|done].
  by rewrite chat_body_cases, Hd.
Qed.

Lemma handled_returns ai_content r : ∃ a, (handled ai_content r).1 = Ok a.
Proof. destruct r as [[a|e] w]; by eexists. Qed.

Lemma chat_endpoint_returns request w : ∃ r, (chat_endpoint request w).1 = Ok r.
Proof.
  rewrite chat_endpoint_cases.
  destruct (db w); [|by eexists]. destruct (serving w); [|by eexists].
  rewrite chat_body_cases.
  destruct (dispatch_loop _ _ _) as [[[[ai_content m]|]|e] w1];
    [apply handled_returns|by eexists..].
Qed.

(** *** The paths through [interpret] *)

Lemma interpret_undecodable request ai_content selected_model w1 e :
  json_loads ai_content = Raise e →
  interpret request ai_content selected_model w1 = (Raise e, w1).
Proof. intros Hl. unfold interpret, bind, lift. by rewrite Hl. Qed.

Lemma interpret_conversation request ai_content selected_model w1 v d :
  json_loads ai_content = Ok v → as_conversation v = Some d →
  interpret request ai_content selected_model w1 =
  match d !! "message" with
  | Some (PStr s) => (Ok {| response := s; data := PNone |}, w1)
  | Some x => (Raise (Exn ValidationError (validation_error x)), w1)
  | None => (Raise (Exn KeyError "'message'"), w1)
  end.
Proof.
  intros Hl Hc. unfold interpret, bind, lift. rewrite Hl, Hc.
  unfold py_getitem. destruct (d !! "message") as [x|]; [|done].
  by destruct x.
Qed.

Lemma interpret_not_dict request ai_content selected_model w1 v :
  json_loads ai_content = Ok v → is_dict v = false →
  interpret request ai_content selected_model w1 =
  (Raise (Exn AttributeError
            ("'" +:+ type_name v +:+ "' object has no attribute 'get'")), w1).
Proof.
  intros Hl Hd. unfold interpret, bind, lift. rewrite Hl.
  by destruct v.
Qed.

Lemma directive_not_conversation v c p :
  directive v = Some (c, p) → as_conversation v = None.
Proof.
  destruct v; try done. cbn. by destruct (eq_str _ _).
Qed.

Lemma interpret_no_intent request ai_content selected_model w1 d :
  json_loads ai_content = Ok (PDict d) →
  as_conversation (PDict d) = None → directive (PDict d) = None →
  interpret request ai_content selected_model w1 =
  (Ok (advisory intent_advisory), w1).
Proof.
  intros Hl Hc Hd. unfold interpret, bind, lift. rewrite Hl, Hc.
  cbn in *. destruct (eq_str _ _); [done|].
  destruct (truthy (default PNone (d !! "collection"))); [|done].
  by destruct (truthy (default PNone (d !! "pipeline"))).
Qed.

(** A directive is run on the store; a record set that is not empty goes to
    the summary call. *)
Lemma interpret_directive request ai_content selected_model w1 v c p :
  json_loads ai_content = Ok v → directive v = Some (c, p) →
  interpret request ai_content selected_model w1 =
  let w2 := log_call (Aggregate c p) w1 in
  match aggregate (trace w1) c p with
  | Raise e => (Raise e, w2)
  | Ok results =>
      let records := stringify_doc <$> results in
      match results with
      | [] =>
          (Ok {| response := no_results_advisory c;
                 data := PDict {[ "query" := p ]} |}, w2)
      | _ =>
          let prompt := summary_prompt request records in
          let w3 :=
            log_call (GenerateContent selected_model prompt summary_config)
              w2 in
          match generate_content (trace w2) selected_model prompt
                  summary_config with
          | Ok (Some t) =>
              (Ok {| response := PyStr.strip t;
                     data := PList (PDict <$> records) |}, w3)
          | Ok None =>
              (Raise (Exn AttributeError
                        "'NoneType' object has no attribute 'strip'"), w3)
          | Raise e => (Raise e, w3)
          end
      end
  end.
Proof.
  intros Hl Hd. pose proof (directive_not_conversation v c p Hd) as Hc.
  unfold interpret, bind, lift. rewrite Hl, Hc.
  destruct v as [| | | | | |d|]; try done. cbn in Hd.
  destruct (eq_str _ _); [done|].
  destruct (truthy (default PNone (d !! "collection"))) eqn:Htc; [|done].
  destruct (truthy (default PNone (d !! "pipeline"))) eqn:Htp; [|done].
  injection Hd as <- <-. cbn [py_get ret]. rewrite Htc, Htp. cbn [negb orb].
  unfold db_aggregate, models_generate_content, text_strip.
  destruct (aggregate _ _ _) as [results|e]; [|done].
  destruct results as [|r results]; [done|]. cbn.
  by destruct (generate_content _ _ _ _) as [[t|]|e].
Qed.

(** *** The calls of the dispatcher *)

Lemma db_calls_app (l1 l2 : list event) :
  db_calls (l1 ++ l2) = db_calls l1 + db_calls l2.
Proof. unfold db_calls. by rewrite filter_app, length_app. Qed.

Lemma db_calls_dispatch request (models : list string) :
  db_calls (dispatch_call request <$> models) = 0.
Proof. by induction models. Qed.

Lemma dispatch_loop_trace request models w :
  ∃ tried rest : list string,
    models = tried ++ rest
    ∧ trace (dispatch_loop request models w).2
      = trace w ++ (dispatch_call request <$> tried)
    ∧ dispatch_result request (trace w) tried rest
        (dispatch_loop request models w).1.
Proof.
  destruct (dispatch_loop_spec request models w)
    as (tried & rest & Hm & Hw & Hr).
  exists tried, rest. split_and!; [done| |done].
  rewrite Hw. apply trace_foldl_log.
Qed.

Lemma dispatch_loop_db_calls request models w :
  db_calls (trace (dispatch_loop request models w).2) = db_calls (trace w).
Proof.
  destruct (dispatch_loop_trace request models w) as (tried & _ & _ & -> & _).
  rewrite db_calls_app, db_calls_dispatch. lia.
Qed.

Lemma dispatched_db_calls request w ai_content selected_model w1 :
  dispatched request w ai_content selected_model w1 →
  db_calls (trace w1) = db_calls (trace w).
Proof.
  intros [_ Hd].
  pose proof (dispatch_loop_db_calls request models_to_try (after_init w))
    as Hc.
  rewrite Hd in Hc. cbn in Hc. rewrite Hc.
  by destruct (after_init_keeps w) as [-> _].
Qed.

(** The output the dispatcher hands on has been stripped. *)
Lemma dispatched_stripped request w ai_content selected_model w1 :
  dispatched request w ai_content selected_model w1 →
  PyStr.strip ai_content = ai_content.
Proof.
  intros [_ Hd].
  destruct (dispatch_loop_trace request models_to_try (after_init w))
    as (tried & rest & _ & _ & Hr).
  rewrite Hd in Hr. cbn in Hr. destruct Hr as (before & _ & _ & Ha).
  unfold attempt in Ha.
  destruct (generate_content _ _ _ _) as [[t|]|e]; try done.
  injection Ha as <-. apply PyStrFacts.strip_idem.
Qed.

Lemma dispatch_loop_exhausted request models w :
  all_retryable request (trace w) models →
  dispatch_loop request models w =
  (Ok None, foldl (fun w m => log_call (dispatch_call request m) w) w models).
Proof.
  revert w. induction models as [|m models IH]; intros w; [done|].
  intros [(e & He & Hr) Hrest]. rewrite dispatch_loop_cons, He, Hr.
  by apply IH.
Qed.

Lemma chat_endpoint_exhausted request w :
  serving w = true → all_retryable request (trace w) models_to_try →
  chat_endpoint request w =
  (Ok (advisory quota_advisory),
   foldl (fun w m => log_call (dispatch_call request m) w) (after_init w)
     models_to_try).
Proof.
  intros Hs Ha. rewrite chat_endpoint_cases, Hs.
  unfold serving in Hs. destruct (db w); [|done].
  rewrite chat_body_cases, dispatch_loop_exhausted; [done|].
  by destruct (after_init_keeps w) as [-> _].
Qed.

(** *** The string conversion of the records *)

Lemma foldl_stringify (l : list (string * pyval)) (acc : doc) k :
  NoDup l.*1 →
  foldl (fun acc kv =>
           if hasattr_str kv.2 then <[kv.1 := PStr (py_str kv.2)]> acc
           else acc) acc l !! k
  = match (list_to_map l : doc) !! k with
    | Some v => Some (PStr (py_str v))
    | None => acc !! k
    end.
Proof.
  revert acc. induction l as [|[k' v'] l IH]; intros acc; [done|].
  rewrite fmap_cons, NoDup_cons. intros [Hk' Hl].
  cbn [foldl list_to_map foldr fst snd uncurry]. unfold hasattr_str at 2.
  change (uncurry insert (k', v') (list_to_map l : doc))
    with (<[k' := v']> (list_to_map l : doc)).
  rewrite IH by done. destruct (decide (k = k')) as [->|Hne].
  - rewrite (not_elem_of_list_to_map_1 (M := gmap string) _ _ Hk').
    by rewrite !lookup_insert_eq.
  - by rewrite !lookup_insert_ne.
Qed.

Lemma stringify_doc_fmap (d : doc) :
  stringify_doc d = (fun v => PStr (py_str v)) <$> d.
Proof.
  apply map_eq. intros k. unfold stringify_doc.
  rewrite foldl_stringify by apply NoDup_fst_map_to_list.
  rewrite list_to_map_to_list, lookup_fmap.
  by destruct (d !! k).
Qed.

Lemma stringify_docs_fmap (results : list doc) :
  stringify_doc <$> results
  = (fmap (fun v => PStr (py_str v)) : doc → doc) <$> results.
Proof.
  induction results as [|d results IH]; [done|].
  by rewrite !fmap_cons, IH, stringify_doc_fmap.
Qed.

End Endpoint.

(** ** What the endpoint answers *)
Section Answers.
Context `{Collaborators}.

(** C1. [POST /chat] never raises: for every request, in every state of the
    process and whatever the collaborators do, the handler returns a
    [ChatResponse], so the route answers 200 with a [response] text. Each
    failure has its text: no database, no model client, every model
    exhausted, an error the dispatcher does not retry, an output that
    [json.loads] refuses, a failing aggregation, a failing summary call. *)
Theorem chat_always_answers_200 :
  (∀ request w,
     ∃ r, (chat_endpoint request w).1 = Ok r
          ∧ (post_chat request w).1
            = {| status_code := 200; body := Some r |})
  ∧ (∀ request w,
       db w = None →
       (chat_endpoint request w).1 = Ok (advisory no_database_advisory))
  ∧ (∀ request w,
       is_Some (db w) → serving w = false →
       (chat_endpoint request w).1 = Ok (advisory not_initialized_advisory))
  ∧ (∀ request w,
       serving w = true →
       all_retryable request (trace w) models_to_try →
       (chat_endpoint request w).1 = Ok (advisory quota_advisory))
  ∧ (∀ request w w1 e,
       serving w = true →
       dispatch_loop request models_to_try (after_init w) = (Raise e, w1) →
       (chat_endpoint request w).1 = Ok (advisory (error_advisory e)))
  ∧ (∀ request w ai_content selected_model w1 e,
       dispatched request w ai_content selected_model w1 →
       json_loads (strip_fences ai_content) = Raise e →
       (chat_endpoint request w).1
       = Ok (advisory
               (if is_JSONDecodeError e
                then parse_advisory (strip_fences ai_content)
                else error_advisory e)))
  ∧ (∀ request w ai_content selected_model w1 v c p e,
       dispatched request w ai_content selected_model w1 →
       json_loads (strip_fences ai_content) = Ok v →
       directive v = Some (c, p) →
       aggregate (trace w1) c p = Raise e →
       (chat_endpoint request w).1
       = Ok (advisory
               (if is_JSONDecodeError e
                then parse_advisory (strip_fences ai_content)
                else error_advisory e)))
  ∧ (∀ request w ai_content selected_model w1 v c p results e,
       dispatched request w ai_content selected_model w1 →
       json_loads (strip_fences ai_content) = Ok v →
       directive v = Some (c, p) →
       aggregate (trace w1) c p = Ok results → results ≠ [] →
       generate_content (trace w1 ++ [Aggregate c p]) selected_model
         (summary_prompt request (stringify_doc <$> results)) summary_config
       = Raise e →
       (chat_endpoint request w).1
       = Ok (advisory
               (if is_JSONDecodeError e
                then parse_advisory (strip_fences ai_content)
                else error_advisory e))).
Proof.
  split_and!.
  - intros request w. destruct (chat_endpoint_returns request w) as [r Hr].
    exists r. split; [done|]. unfold post_chat.
    destruct (chat_endpoint request w) as [[r'|e] w']; by simplify_eq/=.
  - intros request w Hdb. by rewrite chat_endpoint_cases, Hdb.
  - intros request w [d Hdb] Hs. by rewrite chat_endpoint_cases, Hdb, Hs.
  - intros request w Hs Ha. by rewrite chat_endpoint_exhausted.
  - intros request w w1 e Hs Hd. rewrite chat_endpoint_cases, Hs.
    unfold serving in Hs. destruct (db w); [|done].
    by rewrite chat_body_cases, Hd.
  - intros request w ai_content selected_model w1 e Hd Hl.
    rewrite (chat_endpoint_dispatched _ _ _ _ _ Hd).
    by rewrite (interpret_undecodable _ _ _ _ _ Hl).
  - intros request w ai_content selected_model w1 v c p e Hd Hl Hv Ha.
    rewrite (chat_endpoint_dispatched _ _ _ _ _ Hd).
    rewrite (interpret_directive _ _ _ _ _ _ _ Hl Hv). cbn zeta.
    by rewrite Ha.
  - intros request w ai_content selected_model w1 v c p results e
      Hd Hl Hv Ha Hne Hg.
    rewrite (chat_endpoint_dispatched _ _ _ _ _ Hd).
    rewrite (interpret_directive _ _ _ _ _ _ _ Hl Hv). cbn zeta.
    rewrite Ha. destruct results as [|r results]; [done|].
    cbn [log_call trace]. by rewrite Hg.
Qed.

(** C3. When every candidate fails with a retryable error, the dispatcher
    does not raise but ends with no model selected, and [POST /chat]
    returns the advisory that all models have exceeded their quota; the
    only calls made are the dispatcher's, one per candidate, and none goes
    to the store. *)
Theorem exhausted_models_advisory request w :
  serving w = true →
  all_retryable request (trace w) models_to_try →
  (dispatch_loop request models_to_try (after_init w)).1 = Ok None
  ∧ (chat_endpoint request w).1
    = Ok {| response :=
              "All Gemini models have exceeded their quota. Please try again later or check your API key quota at https://ai.dev/rate-limit.";
            data := PNone |}
  ∧ trace (chat_endpoint request w).2
    = trace w ++ (dispatch_call request <$> models_to_try)
  ∧ db_calls (trace (chat_endpoint request w).2) = db_calls (trace w).
Proof.
  intros Hs Ha. destruct (after_init_keeps w) as [Ht _].
  rewrite chat_endpoint_exhausted by done.
  rewrite dispatch_loop_exhausted by by rewrite Ht.
  cbn [fst snd]. rewrite trace_foldl_log, Ht.
  split_and!; [done..|].
  rewrite db_calls_app, db_calls_dispatch. lia.
Qed.

(** C5 (as amended). For a model output that parses to a JSON object whose
    [type] is ["conversation"], the endpoint makes no call after the
    dispatcher's, none to the store; when the object's [message] is a
    string, the response is exactly that string with null data. In
    particular the output [{"type":"conversation","message":"Hi"}] is
    answered by [{response: "Hi", data: null}]. *)
Theorem conversation_reply request w ai_content selected_model w1 d :
  dispatched request w ai_content selected_model w1 →
  json_loads (strip_fences ai_content) = Ok (PDict d) →
  eq_str (d !! "type") "conversation" = true →
  trace (chat_endpoint request w).2 = trace w1
  ∧ db_calls (trace (chat_endpoint request w).2) = db_calls (trace w)
  ∧ (∀ msg,
       d !! "message" = Some (PStr msg) →
       (chat_endpoint request w).1 = Ok {| response := msg; data := PNone |})
  ∧ (d = {[ "type" := PStr "conversation"; "message" := PStr "Hi" ]} →
     (chat_endpoint request w).1 = Ok {| response := "Hi"; data := PNone |}).
Proof.
  intros Hd Hl Ht.
  assert (as_conversation (PDict d) = Some d) as Hc by (cbn; by rewrite Ht).
  rewrite (chat_endpoint_dispatched _ _ _ _ _ Hd).
  rewrite (interpret_conversation _ _ _ _ _ _ Hl Hc).
  assert (∀ msg, d !! "message" = Some (PStr msg) →
                 (handled (strip_fences ai_content)
                    match d !! "message" with
                    | Some (PStr s) =>
                        (Ok {| response := s; data := PNone |}, w1)
                    | Some x =>
                        (Raise (Exn ValidationError (validation_error x)), w1)
                    | None => (Raise (Exn KeyError "'message'"), w1)
                    end).1 = Ok {| response := msg; data := PNone |}) as Hm.
  { intros msg Hmsg. by rewrite Hmsg. }
  split_and!.
  - destruct (d !! "message") as [[]|]; done.
  - rewrite <- (dispatched_db_calls _ _ _ _ _ Hd).
    destruct (d !! "message") as [[]|]; done.
  - done.
  - intros ->. by apply Hm.
Qed.

(** C6 (as amended). An output that [json.loads] refuses as undecodable is
    answered by the parse advisory, which ends with the output as cleaned
    of its fences (the output itself when it has none); an output that
    parses to an object that is no conversation and lacks a non-empty
    [collection] or [pipeline] is answered by the fixed advisory that the
    query was not understood. Neither makes a call to the store. *)
Theorem unusable_output_advisories request w ai_content selected_model w1 :
  dispatched request w ai_content selected_model w1 →
  (∀ e,
     json_loads (strip_fences ai_content) = Raise e →
     is_JSONDecodeError e = true →
     (chat_endpoint request w).1
     = Ok {| response :=
               "AI Error: Failed to parse response. Raw: "
               +:+ strip_fences ai_content;
             data := PNone |}
     ∧ (PyStr.startswith ai_content fence = false →
        PyStr.endswith ai_content fence = false →
        strip_fences ai_content = ai_content)
     ∧ trace (chat_endpoint request w).2 = trace w1
     ∧ db_calls (trace (chat_endpoint request w).2) = db_calls (trace w))
  ∧ (∀ d,
       json_loads (strip_fences ai_content) = Ok (PDict d) →
       eq_str (d !! "type") "conversation" = false →
       truthy (default PNone (d !! "collection"))
       && truthy (default PNone (d !! "pipeline")) = false →
       (chat_endpoint request w).1
       = Ok {| response :=
                 "Sorry, I couldn't understand how to query the database for that.";
               data := PNone |}
       ∧ trace (chat_endpoint request w).2 = trace w1
       ∧ db_calls (trace (chat_endpoint request w).2) = db_calls (trace w)).
Proof.
  intros Hd. pose proof (dispatched_db_calls _ _ _ _ _ Hd) as Hcalls.
  rewrite (chat_endpoint_dispatched _ _ _ _ _ Hd). split.
  - intros e Hl He. rewrite (interpret_undecodable _ _ _ _ _ Hl).
    cbn. rewrite He. split_and!; [done| |done..].
    intros Hs Hf. rewrite strip_fences_unfenced by done.
    by eapply dispatched_stripped.
  - intros d Hl Ht Hf.
    rewrite (interpret_no_intent _ _ _ _ _ Hl); [done|..];
      cbn; by rewrite Ht, ?Hf.
Qed.

(** C7. A valid directive whose aggregation returns no record is answered,
    as a normal return, by the advisory that names the collection, with
    [data.query] the pipeline that was run; after the dispatcher's calls
    the only call is that aggregation, so no summary is asked for. *)
Theorem empty_result_advisory request w ai_content selected_model w1 v c p :
  dispatched request w ai_content selected_model w1 →
  json_loads (strip_fences ai_content) = Ok v →
  directive v = Some (c, p) →
  aggregate (trace w1) c p = Ok [] →
  (chat_endpoint request w).1
  = Ok {| response :=
            "No results found for your query in the " +:+ py_str c
            +:+ " collection.";
          data := PDict {[ "query" := p ]} |}
  ∧ trace (chat_endpoint request w).2 = trace w1 ++ [Aggregate c p].
Proof.
  intros Hd Hl Hv Ha. rewrite (chat_endpoint_dispatched _ _ _ _ _ Hd).
  rewrite (interpret_directive _ _ _ _ _ _ _ Hl Hv). cbn zeta.
  by rewrite Ha.
Qed.

(** C8. Every value of every record that the aggregation returns is
    replaced by its [str] before the records are used: the records in the
    response's [data] are the returned ones with each field mapped to the
    string of its value. In particular, when the store answers the
    total-balance directive on [accounts] with the one record of the sum
    350 (balances 100 and 250), [data] is that record with [totalBalance]
    the string "350". *)
Theorem records_are_stringified
    request w ai_content selected_model w1 v c p results s :
  dispatched request w ai_content selected_model w1 →
  json_loads (strip_fences ai_content) = Ok v →
  directive v = Some (c, p) →
  aggregate (trace w1) c p = Ok results → results ≠ [] →
  generate_content (trace w1 ++ [Aggregate c p]) selected_model
    (summary_prompt request (stringify_doc <$> results)) summary_config
  = Ok (Some s) →
  (∀ (d : doc) k, stringify_doc d !! k = (fun x => PStr (py_str x)) <$> d !! k)
  ∧ (chat_endpoint request w).1
    = Ok {| response := PyStr.strip s;
            data :=
              PList (PDict <$> (fmap (fun x => PStr (py_str x)) <$> results)) |}
  ∧ (c = PStr "accounts" →
     p = PList
           [PDict {[ "$group" :=
                       PDict {[ "_id" := PNone;
                                "totalBalance" :=
                                  PDict {[ "$sum" := PStr "$balance" ]} ]} ]}] →
     results = [ {[ "_id" := PNone; "totalBalance" := PInt (100 + 250) ]} ] →
     (chat_endpoint request w).1
     = Ok {| response := PyStr.strip s;
             data := PList [PDict {[ "_id" := PStr "None";
                                     "totalBalance" := PStr "350" ]}] |}).
Proof.
  intros Hd Hl Hv Ha Hne Hg.
  assert ((chat_endpoint request w).1
          = Ok {| response := PyStr.strip s;
                  data :=
                    PList (PDict <$>
                             (fmap (fun x => PStr (py_str x)) <$> results)) |})
    as Hr.
  { rewrite (chat_endpoint_dispatched _ _ _ _ _ Hd).
    rewrite (interpret_directive _ _ _ _ _ _ _ Hl Hv). cbn zeta.
    rewrite Ha. destruct results as [|r results]; [done|].
    cbn [log_call trace]. rewrite Hg. cbn [handled fst].
    by rewrite stringify_docs_fmap. }
  split_and!.
  - intros d k. by rewrite stringify_doc_fmap, lookup_fmap.
  - done.
  - intros _ _ ->. rewrite Hr. reflexivity.
Qed.

(** C9. For a record set that is not empty the summary is asked for once,
    right after the aggregation, from the model the dispatcher selected, at
    temperature 0.3 and with no system instruction; the prompt contains the
    user's message, the dump of the first ten (converted) records at most,
    and the total count. When the call answers, the response is its
    (stripped) text and [data] is the whole converted record set. *)
Theorem summary_call_and_response
    request w ai_content selected_model w1 v c p results :
  dispatched request w ai_content selected_model w1 →
  json_loads (strip_fences ai_content) = Ok v →
  directive v = Some (c, p) →
  aggregate (trace w1) c p = Ok results → results ≠ [] →
  let records := stringify_doc <$> results in
  let prompt := summary_prompt request records in
  trace (chat_endpoint request w).2
  = trace w1 ++ [Aggregate c p;
                 GenerateContent selected_model prompt
                   {| system_instruction := None;
                      temperature := 0.3%float |}]
  ∧ PyStr.contains prompt (message request) = true
  ∧ PyStr.contains prompt (json_dumps (PList (PDict <$> firstn 10 records)))
    = true
  ∧ length (firstn 10 records) ≤ 10
  ∧ PyStr.contains prompt (pretty (length results)) = true
  ∧ (∀ s,
       generate_content (trace w1 ++ [Aggregate c p]) selected_model prompt
         summary_config = Ok (Some s) →
       (chat_endpoint request w).1
       = Ok {| response := PyStr.strip s;
               data := PList (PDict <$> records) |}).
Proof.
  intros Hd Hl Hv Ha Hne records prompt.
  rewrite (chat_endpoint_dispatched _ _ _ _ _ Hd).
  rewrite (interpret_directive _ _ _ _ _ _ _ Hl Hv). cbn zeta.
  rewrite Ha. fold records. fold prompt.
  split_and!.
  - destruct results as [|r results]; [done|].
    cbn [log_call trace].
    destruct (generate_content _ _ _ _) as [[t|]|e]; cbn;
      by rewrite <- app_assoc.
  - unfold prompt, summary_prompt.
    rewrite <- !(PyStrFacts.app_assoc _ _ (message request +:+ _)).
    apply PyStrFacts.contains_app.
  - unfold prompt, summary_prompt.
    rewrite <- !(PyStrFacts.app_assoc _ _ (json_dumps _ +:+ _)).
    apply PyStrFacts.contains_app.
  - rewrite length_take. lia.
  - unfold prompt, summary_prompt, records. rewrite length_fmap.
    rewrite <- !(PyStrFacts.app_assoc _ _ (pretty (length results) +:+ _)).
    apply PyStrFacts.contains_app.
  - intros s Hg. destruct results as [|r results]; [done|].
    cbn [log_call trace]. by rewrite Hg.
Qed.

(** C10. An output that parses to a JSON value that is no object, or to a
    conversation object without [message], is answered by the outermost
    handler's "An error occurred: ..." (the text of the [AttributeError],
    or of the [KeyError]), which is not the parse advisory; no call is made
    after the dispatcher's, and none to the store. *)
Theorem non_object_output_is_error
    request w ai_content selected_model w1 v :
  dispatched request w ai_content selected_model w1 →
  json_loads (strip_fences ai_content) = Ok v →
  (is_dict v = false →
   (chat_endpoint request w).1
   = Ok {| response :=
             "An error occurred: '" +:+ type_name v
             +:+ "' object has no attribute 'get'";
           data := PNone |})
  ∧ (∀ d,
       v = PDict d → eq_str (d !! "type") "conversation" = true →
       d !! "message" = None →
       (chat_endpoint request w).1
       = Ok {| response := "An error occurred: 'message'"; data := PNone |})
  ∧ (is_dict v = false
     ∨ (∃ d, v = PDict d ∧ eq_str (d !! "type") "conversation" = true
             ∧ d !! "message" = None) →
     (chat_endpoint request w).1
     ≠ Ok {| response :=
               "AI Error: Failed to parse response. Raw: "
               +:+ strip_fences ai_content;
             data := PNone |}
     ∧ trace (chat_endpoint request w).2 = trace w1
     ∧ db_calls (trace (chat_endpoint request w).2) = db_calls (trace w)).
Proof.
  intros Hd Hl. pose proof (dispatched_db_calls _ _ _ _ _ Hd) as Hcalls.
  rewrite (chat_endpoint_dispatched _ _ _ _ _ Hd).
  assert (∀ d, v = PDict d → eq_str (d !! "type") "conversation" = true →
               d !! "message" = None →
               interpret request (strip_fences ai_content) selected_model w1
               = (Raise (Exn KeyError "'message'"), w1)) as Hkey.
  { intros d -> Ht Hm.
    assert (as_conversation (PDict d) = Some d) as Hc
      by (cbn; by rewrite Ht).
    by rewrite (interpret_conversation _ _ _ _ _ _ Hl Hc), Hm. }
  split_and!.
  - intros Hv. by rewrite (interpret_not_dict _ _ _ _ _ Hl Hv).
  - intros d Hv Ht Hm. by rewrite (Hkey d Hv Ht Hm).
  - intros [Hv|(d & Hv & Ht & Hm)].
    + rewrite (interpret_not_dict _ _ _ _ _ Hl Hv). by split_and!.
    + rewrite (Hkey d Hv Ht Hm). by split_and!.
Qed.

End Answers.

(** ** Requests run on the scripted deployment *)
Module Runs.
Import Fixture.

(** The deployment with every model answering, and the one in which the
    first candidate is out of quota. *)
Definition all_up : Collaborators := deployment [].
Definition first_down : Collaborators := deployment ["gemini-1.5-flash"].
Definition all_down : Collaborators := deployment models_to_try.

Definition ask (question : string) : ChatRequest := {| message := question |}.

(** The world the dispatcher leaves when the first candidate answers. *)
Definition after_first (question : string) : world :=
  log_call
    (dispatch_call (H := all_up) (ask question) "gemini-1.5-flash") started.

Lemma dispatched_first question :
  dispatched (H := all_up) (ask question) started
    (PyStr.strip (answer question)) "gemini-1.5-flash" (after_first question).
Proof. split; reflexivity. Qed.

(** The parsed directives of the scripted model. *)
Definition total_balance_pipeline : pyval :=
  PList
    [PDict {[ "$group" :=
                PDict {[ "_id" := PNone;
                         "totalBalance" :=
                           PDict {[ "$sum" := PStr "$balance" ]} ]} ]}].

Definition total_balance_parsed : pyval :=
  PDict {[ "collection" := PStr "accounts";
           "pipeline" := total_balance_pipeline ]}.

Definition loans_pipeline : pyval := PList [PDict {[ "$limit" := PInt 5 ]}].

Definition loans_parsed : pyval :=
  PDict {[ "collection" := PStr "loans"; "pipeline" := loans_pipeline ]}.

(** C1, run: a model output that is no JSON is answered, not raised. *)
Lemma chat_always_answers_200_witness :
  (chat_endpoint (H := all_up) (ask "what?") started).1
  = Ok (advisory
          "AI Error: Failed to parse response. Raw: I am not sure what you mean.").
Proof.
  pose proof (@chat_always_answers_200 all_up)
    as (_ & _ & _ & _ & _ & Hparse & _).
  apply (Hparse (ask "what?") started _ _ _ decode_error
           (dispatched_first "what?")).
  vm_compute. reflexivity.
Defined.

(** A deployment whose first candidate answers with an internal error,
    which holds none of the retry markers. *)
Definition internal_error : exn :=
  Exn (OtherException "ServerError")
      "500 INTERNAL. An internal error has occurred.".

Definition first_broken : Collaborators := {|
  SYSTEM_PROMPT := SYSTEM_PROMPT (Collaborators := all_up);
  genai_Client := genai_Client (Collaborators := all_up);
  generate_content := fun h model contents config =>
    if String.eqb model "gemini-1.5-flash" then Raise internal_error
    else generate_content (Collaborators := all_up) h model contents config;
  aggregate := aggregate (Collaborators := all_up);
  json_loads := json_loads (Collaborators := all_up);
  json_dumps := json_dumps (Collaborators := all_up);
  py_repr := py_repr (Collaborators := all_up);
  validation_error := validation_error (Collaborators := all_up)
|}.

(** C2, run: the first candidate is out of quota, the second answers, the
    third is not called; and the first candidate fails with an internal
    error, which is raised at once, no other candidate being called. *)
Lemma dispatcher_falls_back_in_order_witness :
  ((dispatch_loop (H := first_down) (ask "hello")
      ["gemini-1.5-flash"; "gemini-1.5-flash-8b"; "gemini-2.0-flash"]
      started).1
   = Ok (Some (PyStr.strip (answer "hello"), "gemini-1.5-flash-8b"))
   ∧ trace
       (dispatch_loop (H := first_down) (ask "hello")
          ["gemini-1.5-flash"; "gemini-1.5-flash-8b"; "gemini-2.0-flash"]
          started).2
     = trace started
       ++ [dispatch_call (H := first_down) (ask "hello") "gemini-1.5-flash";
           dispatch_call (H := first_down) (ask "hello")
             "gemini-1.5-flash-8b"])
  ∧ (dispatch_loop (H := first_broken) (ask "hello")
       ["gemini-1.5-flash"; "gemini-1.5-flash-8b"; "gemini-2.0-flash"]
       started
     = (Raise internal_error,
        log_call
          (dispatch_call (H := first_broken) (ask "hello") "gemini-1.5-flash")
          started)
     ∧ trace
         (dispatch_loop (H := first_broken) (ask "hello")
            ["gemini-1.5-flash"; "gemini-1.5-flash-8b"; "gemini-2.0-flash"]
            started).2
       = trace started
         ++ [dispatch_call (H := first_broken) (ask "hello")
               "gemini-1.5-flash"]).
Proof.
  split.
  - pose proof (@dispatcher_falls_back_in_order first_down)
      as (_ & Hp & _ & Hquota & _).
    apply (Hp (ask "hello") "gemini-1.5-flash" "gemini-1.5-flash-8b"
             "gemini-2.0-flash" started quota_error (answer "hello")).
    + reflexivity.
    + rewrite <- Hquota. vm_compute. reflexivity.
    + reflexivity.
  - pose proof (@dispatcher_falls_back_in_order first_broken)
      as (_ & _ & Hsignal & _ & _ & Habort).
    apply (Habort (ask "hello") "gemini-1.5-flash"
             ["gemini-1.5-flash-8b"; "gemini-2.0-flash"] started
             internal_error).
    + reflexivity.
    + rewrite <- Hsignal. vm_compute. discriminate.
Defined.

(** C3, run: every candidate is out of quota. *)
Lemma exhausted_models_advisory_witness :
  (chat_endpoint (H := all_down) (ask "hello") started).1
  = Ok (advisory quota_advisory)
  ∧ db_calls (trace (chat_endpoint (H := all_down) (ask "hello") started).2)
    = 0.
Proof.
  destruct (@exhausted_models_advisory all_down (ask "hello") started)
    as (_ & Hr & _ & Hc).
  - reflexivity.
  - cbn [all_retryable models_to_try].
    repeat (split; [exists quota_error; split; vm_compute; reflexivity|]).
    exact I.
  - split; [exact Hr|exact Hc].
Defined.

(** C4, run: the total-balance directive in a "```json" block. *)
Lemma fenced_output_parses_as_inner_witness :
  strip_fences
    (PyStr.strip
       (EmptyString
        +:+ ("```json" +:+ (nl +:+ total_balance_directive +:+ nl) +:+ fence)
        +:+ nl))
  = total_balance_directive
  ∧ json_loads (Collaborators := all_up)
      (strip_fences
         (PyStr.strip
            (EmptyString
             +:+ ("```json" +:+ (nl +:+ total_balance_directive +:+ nl)
                  +:+ fence)
             +:+ nl)))
    = Ok total_balance_parsed.
Proof.
  destruct (@fenced_output_parses_as_inner all_up EmptyString true
              (nl +:+ total_balance_directive +:+ nl) nl)
    as (Hw & Hp & _).
  - reflexivity.
  - reflexivity.
  - vm_compute. reflexivity.
  - split.
    + rewrite Hw. vm_compute. reflexivity.
    + rewrite Hp. vm_compute. reflexivity.
Defined.

(** C4 as stated fails: the inner text of a "```json" block begins with a
    fence of its own, and the clean-up takes that fence away too. *)
Lemma nested_fence_is_stripped :
  ¬ (∀ ws1 (json : bool) inner ws2,
       PyStr.all_space ws1 = true → PyStr.all_space ws2 = true →
       (json = false → PyStr.startswith inner "json" = false) →
       strip_fences
         (PyStr.strip
            (ws1 +:+ ((if json then "```json" else fence) +:+ inner +:+ fence)
             +:+ ws2))
       = PyStr.strip inner).
Proof.
  intros Hclaim.
  specialize (Hclaim EmptyString true "```x" EmptyString eq_refl eq_refl).
  vm_compute in Hclaim. by specialize (Hclaim ltac:(discriminate)).
Qed.

(** C5, run: the conversational reply. *)
Lemma conversation_reply_witness :
  (chat_endpoint (H := all_up) (ask "hello") started).1
  = Ok {| response := "Hi"; data := PNone |}.
Proof.
  destruct (@conversation_reply all_up (ask "hello") started _ _ _
              {[ "type" := PStr "conversation"; "message" := PStr "Hi" ]}
              (dispatched_first "hello"))
    as (_ & _ & _ & Hhi).
  - vm_compute. reflexivity.
  - vm_compute. reflexivity.
  - exact (Hhi eq_refl).
Defined.

(** C5 as stated fails: the model writes a conversation object with no
    [message]; the response is the outer handler's text for the
    [KeyError], not a field of the object. *)
Lemma conversation_without_message :
  ¬ (∀ (C : Collaborators) request w ai_content selected_model w1 d,
       dispatched request w ai_content selected_model w1 →
       json_loads (strip_fences ai_content) = Ok (PDict d) →
       eq_str (d !! "type") "conversation" = true →
       ∃ r, (chat_endpoint request w).1 = Ok r
            ∧ d !! "message" = Some (PStr (response r))
            ∧ data r = PNone).
Proof.
  intros Hclaim.
  destruct (Hclaim all_up (ask "who are you") started _ _ _
              {[ "type" := PStr "conversation" ]}
              (dispatched_first "who are you"))
    as (r & _ & Hm & _).
  - vm_compute. reflexivity.
  - vm_compute. reflexivity.
  - vm_compute in Hm. discriminate Hm.
Qed.

(** C6, run: an output that is no JSON comes back in the parse advisory. *)
Lemma unusable_output_advisories_witness :
  (chat_endpoint (H := all_up) (ask "what?") started).1
  = Ok {| response :=
            "AI Error: Failed to parse response. Raw: I am not sure what you mean.";
          data := PNone |}
  ∧ db_calls (trace (chat_endpoint (H := all_up) (ask "what?") started).2)
    = 0.
Proof.
  destruct (@unusable_output_advisories all_up (ask "what?") started _ _ _
              (dispatched_first "what?")) as [Hparse _].
  destruct (Hparse decode_error) as (Hr & _ & _ & Hc).
  - vm_compute. reflexivity.
  - reflexivity.
  - split; [exact Hr|exact Hc].
Defined.

(** C6 as stated fails: the model writes an object with a collection and no
    pipeline; the advisory is the fixed one and does not contain the
    output. *)
Lemma intent_advisory_omits_output :
  ¬ (∀ (C : Collaborators) request w ai_content selected_model w1,
       dispatched request w ai_content selected_model w1 →
       (∃ e, json_loads (strip_fences ai_content) = Raise e
             ∧ is_JSONDecodeError e = true)
       ∨ (∃ d, json_loads (strip_fences ai_content) = Ok (PDict d)
               ∧ truthy (default PNone (d !! "collection"))
                 && truthy (default PNone (d !! "pipeline")) = false) →
       ∃ r, (chat_endpoint request w).1 = Ok r
            ∧ PyStr.contains (response r) ai_content = true
            ∧ db_calls (trace (chat_endpoint request w).2)
              = db_calls (trace w)).
Proof.
  intros Hclaim.
  destruct (Hclaim all_up (ask "accounts?") started _ _ _
              (dispatched_first "accounts?"))
    as (r & Hr & Hc & _).
  - right. exists {[ "collection" := PStr "accounts" ]}.
    split; vm_compute; reflexivity.
  - vm_compute in Hr. injection Hr as <-.
    vm_compute in Hc. discriminate Hc.
Qed.

(** C7, run: the loans collection is empty. *)
Lemma empty_result_advisory_witness :
  (chat_endpoint (H := all_up) (ask "all loans") started).1
  = Ok {| response :=
            "No results found for your query in the loans collection.";
          data := PDict {[ "query" := loans_pipeline ]} |}
  ∧ trace (chat_endpoint (H := all_up) (ask "all loans") started).2
    = trace (after_first "all loans")
      ++ [Aggregate (PStr "loans") loans_pipeline].
Proof.
  apply (@empty_result_advisory all_up (ask "all loans") started _ _ _
           loans_parsed (PStr "loans") loans_pipeline
           (dispatched_first "all loans"));
    vm_compute; reflexivity.
Defined.

(** C8, run: the total balance of the two accounts (100 and 250). *)
Lemma records_are_stringified_witness :
  (chat_endpoint (H := all_up) (ask "total balance") started).1
  = Ok {| response := PyStr.strip summary_text;
          data := PList [PDict {[ "_id" := PStr "None";
                                  "totalBalance" := PStr "350" ]}] |}.
Proof.
  destruct (@records_are_stringified all_up (ask "total balance") started
              _ _ _ total_balance_parsed (PStr "accounts")
              total_balance_pipeline
              [ {[ "_id" := PNone; "totalBalance" := PInt (100 + 250) ]} ]
              summary_text (dispatched_first "total balance"))
    as (_ & _ & Hdata).
  - vm_compute. reflexivity.
  - vm_compute. reflexivity.
  - vm_compute. reflexivity.
  - discriminate.
  - reflexivity.
  - exact (Hdata eq_refl eq_refl eq_refl).
Defined.

(** C9, run: the summary of the total balance. *)
Lemma summary_call_and_response_witness :
  (chat_endpoint (H := all_up) (ask "total balance") started).1
  = Ok {| response := PyStr.strip summary_text;
          data :=
            PList (PDict <$>
                     (stringify_doc (H := all_up) <$>
                        [ {[ "_id" := PNone;
                             "totalBalance" := PInt 350 ]} ])) |}
  ∧ trace (chat_endpoint (H := all_up) (ask "total balance") started).2
    = trace (after_first "total balance")
      ++ [Aggregate (PStr "accounts") total_balance_pipeline;
          GenerateContent "gemini-1.5-flash"
            (summary_prompt (H := all_up) (ask "total balance")
               (stringify_doc (H := all_up) <$>
                  [ {[ "_id" := PNone; "totalBalance" := PInt 350 ]} ]))
            {| system_instruction := None; temperature := 0.3%float |}].
Proof.
  destruct (@summary_call_and_response all_up (ask "total balance") started
              _ _ _ total_balance_parsed (PStr "accounts")
              total_balance_pipeline
              [ {[ "_id" := PNone; "totalBalance" := PInt 350 ]} ]
              (dispatched_first "total balance"))
    as (Htrace & _ & _ & _ & _ & Hr).
  - vm_compute. reflexivity.
  - vm_compute. reflexivity.
  - vm_compute. reflexivity.
  - discriminate.
  - split; [exact (Hr summary_text eq_refl)|exact Htrace].
Defined.

(** C10, run: the model writes a JSON array. *)
Lemma non_object_output_is_error_witness :
  (chat_endpoint (H := all_up) (ask "numbers") started).1
  = Ok {| response :=
            "An error occurred: 'list' object has no attribute 'get'";
          data := PNone |}.
Proof.
  destruct (@non_object_output_is_error all_up (ask "numbers") started
              _ _ _ (PList [PInt 1; PInt 2]) (dispatched_first "numbers"))
    as (Hr & _).
  - vm_compute. reflexivity.
  - exact (Hr eq_refl).
Defined.

End Runs.

(** ** The initialisation of the model client *)
Section Initialisation.
Context `{Collaborators}.

(** [GEMINI_READY] is set exactly when a client is held. *)
Definition consistent (w : world) : Prop :=
  GEMINI_READY w = true ↔ is_Some (genai_client w).

(** X1. [initialize_gemini] returns [True] only with the flag set and a
    client held afterwards, and it returns [True] when the client's
    constructor succeeds on a non-empty key; when it returns [False] it has
    changed no global. It never touches the database handle, the key or
    the trace. *)
Theorem initialize_gemini_result w :
  let w' := (initialize_gemini w).2 in
  ∃ b,
    (initialize_gemini w).1 = Ok b
    ∧ (b = true → GEMINI_READY w' = true ∧ is_Some (genai_client w'))
    ∧ (b = false → w' = w)
    ∧ (∀ c, api_key_set (GEMINI_API_KEY w) = true →
            genai_Client (default EmptyString (GEMINI_API_KEY w)) = Ok c →
            b = true)
    ∧ trace w' = trace w ∧ db w' = db w
    ∧ GEMINI_API_KEY w' = GEMINI_API_KEY w.
Proof.
  unfold initialize_gemini.
  destruct (GEMINI_READY w && _) eqn:Hready.
  - exists true. cbn. split_and!; try done.
    apply andb_true_iff in Hready as [? ?%bool_decide_eq_true]. auto.
  - destruct (api_key_set (GEMINI_API_KEY w)) eqn:Hkey; cbn [negb].
    + destruct (genai_Client _) as [c|e] eqn:Hc.
      * exists true. cbn. split_and!; eauto; done.
      * exists false. cbn. split_and!; try done.
    + exists false. cbn. split_and!; try done.
Qed.

Lemma initialize_gemini_true w :
  (initialize_gemini w).1 = Ok true →
  GEMINI_READY (initialize_gemini w).2
  && bool_decide (is_Some (genai_client (initialize_gemini w).2)) = true.
Proof.
  unfold initialize_gemini.
  destruct (GEMINI_READY w && _) eqn:Hready; [done|].
  destruct (negb _); [done|]. by destruct (genai_Client _).
Qed.

Lemma initialize_gemini_false w :
  (initialize_gemini w).1 = Ok false → (initialize_gemini w).2 = w.
Proof.
  unfold initialize_gemini.
  destruct (GEMINI_READY w && _); [done|].
  destruct (negb _); [done|]. by destruct (genai_Client _).
Qed.

(** X2. A successful initialisation is not repeated: after a call that
    returned [True], a later call returns [True] and changes nothing,
    whatever the client's constructor would do by then. After a call that
    returned [False] nothing is remembered: a later call behaves as a
    first one, on the constructor's answer of that time. *)
Theorem initialize_gemini_once (later : Collaborators) w :
  let w' := (initialize_gemini (H := H) w).2 in
  ((initialize_gemini (H := H) w).1 = Ok true →
   initialize_gemini (H := later) w' = (Ok true, w'))
  ∧ ((initialize_gemini (H := H) w).1 = Ok false →
     initialize_gemini (H := later) w' = initialize_gemini (H := later) w).
Proof.
  cbn zeta. split.
  - intros Hkept%initialize_gemini_true.
    unfold initialize_gemini at 1. by rewrite Hkept.
  - intros Hsame%initialize_gemini_false. by rewrite Hsame.
Qed.

Lemma initialize_gemini_consistent w :
  consistent w → consistent (initialize_gemini w).2.
Proof.
  unfold consistent, initialize_gemini.
  destruct (GEMINI_READY w && _); [done|].
  destruct (negb _); [done|].
  destruct (genai_Client _); [|done]. cbn. intros _. split; eauto.
Qed.

Lemma after_init_consistent w : consistent w → consistent (after_init w).
Proof.
  unfold after_init. destruct (GEMINI_READY w); [done|].
  apply initialize_gemini_consistent.
Qed.

Lemma after_init_key w : GEMINI_API_KEY (after_init w) = GEMINI_API_KEY w.
Proof.
  unfold after_init. destruct (GEMINI_READY w); [done|].
  unfold initialize_gemini.
  destruct (_ && _); [done|]. destruct (negb _); [done|].
  by destruct (genai_Client _).
Qed.

End Initialisation.

(** ** The calls of one request *)
Section Calls.
Context `{Collaborators}.

(** The world after the calls [evs], made in that order. *)
Definition log_calls (evs : list event) (w : world) : world :=
  foldl (fun w ev => log_call ev w) w evs.

Lemma log_calls_trace evs w : trace (log_calls evs w) = trace w ++ evs.
Proof.
  revert w. induction evs as [|ev evs IH]; intros w; cbn.
  - by rewrite app_nil_r.
  - unfold log_calls in IH. rewrite IH. cbn. by rewrite <- app_assoc.
Qed.

Lemma log_calls_globals evs w :
  db (log_calls evs w) = db w
  ∧ GEMINI_API_KEY (log_calls evs w) = GEMINI_API_KEY w
  ∧ GEMINI_READY (log_calls evs w) = GEMINI_READY w
  ∧ genai_client (log_calls evs w) = genai_client w.
Proof.
  revert w. induction evs as [|ev evs IH]; intros w; [done|].
  cbn. unfold log_calls in IH. by destruct (IH (log_call ev w)) as (-> & -> & -> & ->).
Qed.

Lemma log_calls_snoc evs ev w :
  log_call ev (log_calls evs w) = log_calls (evs ++ [ev]) w.
Proof. unfold log_calls. by rewrite foldl_app. Qed.

Lemma dispatch_loop_world request models w :
  ∃ tried rest : list string,
    models = tried ++ rest
    ∧ (dispatch_loop request models w).2
      = log_calls (dispatch_call request <$> tried) w
    ∧ dispatch_result request (trace w) tried rest
        (dispatch_loop request models w).1.
Proof.
  destruct (dispatch_loop_spec request models w)
    as (tried & rest & Hm & Hw & Hr).
  exists tried, rest. split_and!; [done| |done].
  rewrite Hw. unfold log_calls. by rewrite foldl_fmap.
Qed.

Lemma handled_world ai_content r : (handled ai_content r).2 = r.2.
Proof. by destruct r as [[a|e] w]. Qed.

Lemma handled_data ai_content r a :
  (∀ a', r.1 = Ok a' → data a' = PNone) →
  (handled ai_content r).1 = Ok a → data a = PNone.
Proof.
  destruct r as [[a'|e] w]; cbn.
  - intros Hd [= <-]. by apply Hd.
  - by intros _ [= <-].
Qed.

(** [interpret] either makes no call and returns no data, or it has a
    directive to run. *)
Lemma interpret_cases request ai_content selected_model w1 :
  ((interpret request ai_content selected_model w1).2 = w1
   ∧ ∀ a, (interpret request ai_content selected_model w1).1 = Ok a →
          data a = PNone)
  ∨ (∃ v c p, json_loads ai_content = Ok v ∧ directive v = Some (c, p)).
Proof.
  destruct (json_loads ai_content) as [v|e] eqn:Hl.
  - destruct (as_conversation v) as [d|] eqn:Hc.
    + left. rewrite (interpret_conversation _ _ _ _ _ _ Hl Hc).
      destruct (d !! "message") as [[]|]; cbn; split; try done.
      by intros a [= <-].
    + destruct (directive v) as [[c p]|] eqn:Hv; [right; eauto|].
      left. destruct (is_dict v) eqn:Hd.
      * destruct v; try done.
        rewrite (interpret_no_intent _ _ _ _ _ Hl Hc Hv). cbn.
        split; [done|]. by intros a [= <-].
      * by rewrite (interpret_not_dict _ _ _ _ _ Hl Hd).
  - left. by rewrite (interpret_undecodable _ _ _ _ _ Hl).
Qed.

(** The calls that may follow the dispatcher's: none, the aggregation, or
    the aggregation and the summary call on the selected model. *)
Definition directive_calls (request : ChatRequest) (selected_model : string)
    (w1 : world) (c p : pyval) (tail : list event) : Prop :=
  tail = [Aggregate c p]
  ∨ ∃ results,
      aggregate (trace w1) c p = Ok results ∧ results ≠ []
      ∧ tail = [Aggregate c p;
                GenerateContent selected_model
                  (summary_prompt request (stringify_doc <$> results))
                  summary_config].

Lemma interpret_directive_world
    request ai_content selected_model w1 v c p :
  json_loads ai_content = Ok v → directive v = Some (c, p) →
  ∃ tail,
    (interpret request ai_content selected_model w1).2 = log_calls tail w1
    ∧ directive_calls request selected_model w1 c p tail.
Proof.
  intros Hl Hv. rewrite (interpret_directive _ _ _ _ _ _ _ Hl Hv). cbn zeta.
  destruct (aggregate (trace w1) c p) as [results|e] eqn:Ha.
  - destruct results as [|r results].
    + exists [Aggregate c p]. split; [done|by left].
    + eexists. split; [|right; by exists (r :: results)].
      by destruct (generate_content _ _ _ _) as [[t|]|e].
  - exists [Aggregate c p]. split; [done|by left].
Qed.

(** One request, whole: the dispatcher's calls on a prefix of the
    candidates, then either nothing (and no data in the response), or the
    calls for the directive that the selected model wrote. *)
Lemma chat_endpoint_run request w :
  ∃ (tried rest : list string) (tail : list event),
    models_to_try = tried ++ rest
    ∧ (chat_endpoint request w).2
      = log_calls ((dispatch_call request <$> tried) ++ tail) (after_init w)
    ∧ ((tail = []
        ∧ ∀ a, (chat_endpoint request w).1 = Ok a → data a = PNone)
       ∨ ∃ ai_content selected_model w1 v c p,
           dispatched request w ai_content selected_model w1
           ∧ last tried = Some selected_model
           ∧ json_loads (strip_fences ai_content) = Ok v
           ∧ directive v = Some (c, p)
           ∧ directive_calls request selected_model w1 c p tail).
Proof.
  rewrite chat_endpoint_cases.
  destruct (db w) as [database|] eqn:Hdb.
  2: { exists [], models_to_try, []. split_and!; [done..|].
       left. split; [done|]. by intros a [= <-]. }
  destruct (serving w) eqn:Hs.
  2: { exists [], models_to_try, []. split_and!; [done..|].
       left. split; [done|]. by intros a [= <-]. }
  rewrite chat_body_cases.
  destruct (dispatch_loop_world request models_to_try (after_init w))
    as (tried & rest & Hm & Hw & Hr).
  destruct (dispatch_loop request models_to_try (after_init w))
    as [[[[ai_content m]|]|e] w1] eqn:Hd; cbn [fst snd] in *.
  - destruct Hr as (before & -> & _ & _).
    assert (dispatched request w ai_content m w1) as Hdisp by done.
    rewrite handled_world.
    destruct (interpret_cases request (strip_fences ai_content) m w1)
      as [[Hw2 Hdata]|(v & c & p & Hl & Hv)].
    + exists (before ++ [m]), rest, []. rewrite app_nil_r.
      split_and!; [done|by rewrite Hw2|].
      left. split; [done|]. intros a. by apply handled_data.
    + destruct (interpret_directive_world request _ m w1 v c p Hl Hv)
        as (tail & Hw2 & Htail).
      exists (before ++ [m]), rest, tail. split_and!; [done| |].
      * rewrite Hw2, Hw. unfold log_calls. by rewrite foldl_app.
      * right. exists ai_content, m, w1, v, c, p.
        split_and!; try done. apply last_snoc.
  - destruct Hr as [-> _]. exists tried, [], []. rewrite !app_nil_r in *.
    split_and!; [done..|]. left. split; [done|]. by intros a [= <-].
  - exists tried, rest, []. rewrite app_nil_r.
    split_and!; [done..|]. left. split; [done|]. by intros a [= <-].
Qed.

Lemma chat_endpoint_trace request w :
  ∃ (tried rest : list string) (tail : list event),
    models_to_try = tried ++ rest
    ∧ trace (chat_endpoint request w).2
      = trace w ++ (dispatch_call request <$> tried) ++ tail
    ∧ ((tail = []
        ∧ ∀ a, (chat_endpoint request w).1 = Ok a → data a = PNone)
       ∨ ∃ ai_content selected_model w1 v c p,
           dispatched request w ai_content selected_model w1
           ∧ last tried = Some selected_model
           ∧ json_loads (strip_fences ai_content) = Ok v
           ∧ directive v = Some (c, p)
           ∧ directive_calls request selected_model w1 c p tail).
Proof.
  destruct (chat_endpoint_run request w)
    as (tried & rest & tail & Hm & Hw & Hcase).
  exists tried, rest, tail. split_and!; [done| |done].
  rewrite Hw, log_calls_trace. by destruct (after_init_keeps w) as [-> _].
Qed.

Lemma db_calls_tail request selected_model w1 c p tail :
  directive_calls request selected_model w1 c p tail →
  db_calls tail = 1 ∧ length tail ≤ 2.
Proof.
  intros [->|(results & _ & _ & ->)]; (split; [reflexivity|cbn; lia]).
Qed.

(** X3. A request never changes the database handle or the key; a process
    that is ready stays ready with the client it has; the flag and the
    client stay in step; the trace only grows. *)
Theorem chat_endpoint_frame request w :
  let w' := (chat_endpoint request w).2 in
  db w' = db w
  ∧ GEMINI_API_KEY w' = GEMINI_API_KEY w
  ∧ (GEMINI_READY w = true →
     GEMINI_READY w' = true ∧ genai_client w' = genai_client w)
  ∧ (consistent w → consistent w')
  ∧ ∃ evs, trace w' = trace w ++ evs.
Proof.
  cbn zeta.
  destruct (chat_endpoint_run request w)
    as (tried & rest & tail & _ & Hw & _).
  rewrite Hw.
  destruct (log_calls_globals ((dispatch_call request <$> tried) ++ tail)
              (after_init w)) as (Hdb & Hkey & Hready & Hclient).
  destruct (after_init_keeps w) as [Htrace Hdb'].
  split_and!.
  - by rewrite Hdb.
  - by rewrite Hkey, after_init_key.
  - intros Hr. rewrite Hready, Hclient. unfold after_init. by rewrite Hr.
  - intros Hc. apply after_init_consistent in Hc.
    unfold consistent in *. by rewrite Hready, Hclient.
  - eexists. by rewrite log_calls_trace, Htrace.
Qed.

(** X4. The calls of one request are the dispatcher's calls on a prefix of
    the candidates, in order, followed by nothing, by one aggregation, or
    by one aggregation and one summary call on the model tried last. So a
    request makes at most one call per candidate and one more to the model,
    and at most one call to the store, which comes after every dispatcher
    call and before the summary. *)
Theorem chat_endpoint_call_budget request w :
  ∃ (tried rest : list string) (tail : list event),
    models_to_try = tried ++ rest
    ∧ trace (chat_endpoint request w).2
      = trace w ++ (dispatch_call request <$> tried) ++ tail
    ∧ (tail = []
       ∨ ∃ c p,
           tail = [Aggregate c p]
           ∨ ∃ selected_model prompt,
               last tried = Some selected_model
               ∧ tail = [Aggregate c p;
                         GenerateContent selected_model prompt
                           summary_config])
    ∧ length ((dispatch_call request <$> tried) ++ tail)
      ≤ length models_to_try + 2
    ∧ db_calls ((dispatch_call request <$> tried) ++ tail) ≤ 1.
Proof.
  destruct (chat_endpoint_trace request w)
    as (tried & rest & tail & Hm & Ht & Hcase).
  exists tried, rest, tail.
  assert (length tried ≤ length models_to_try) as Hlen.
  { rewrite Hm, length_app. lia. }
  rewrite length_app, length_fmap, db_calls_app, db_calls_dispatch.
  destruct Hcase as [[-> _]|(ai & m & w1 & v & c & p & _ & Hlast & _ & _ & Hd)].
  - change (db_calls []) with 0.
    split_and!; [done|done|by left|cbn [length]; lia|lia].
  - destruct (db_calls_tail _ _ _ _ _ _ Hd) as [Hdb Hl].
    split_and!; [done|done| |lia|lia].
    right. exists c, p. destruct Hd as [->|(results & _ & _ & ->)]; eauto.
Qed.

Lemma directive_truthy v c p :
  directive v = Some (c, p) → truthy c = true ∧ truthy p = true.
Proof.
  destruct v; try done. cbn. destruct (eq_str _ _); [done|].
  destruct (truthy (default PNone (d !! "collection"))) eqn:Hc; [|done].
  destruct (truthy (default PNone (d !! "pipeline"))) eqn:Hp; [|done].
  by intros [= <- <-].
Qed.

(** X5. The store is only ever called for a directive: when a request calls
    [aggregate] with a collection and a pipeline, these are the
    [collection] and [pipeline] fields, both truthy and passed on as they
    were parsed, of the output of the selected model, a JSON object that is
    no conversation. *)
Theorem store_called_only_for_directive request w c p :
  Aggregate c p
  ∈ drop (length (trace w)) (trace (chat_endpoint request w).2) →
  ∃ ai_content selected_model w1 v,
    dispatched request w ai_content selected_model w1
    ∧ json_loads (strip_fences ai_content) = Ok v
    ∧ directive v = Some (c, p)
    ∧ as_conversation v = None
    ∧ truthy c = true ∧ truthy p = true.
Proof.
  destruct (chat_endpoint_trace request w)
    as (tried & rest & tail & _ & -> & Hcase).
  rewrite drop_app_length, elem_of_app.
  intros [Hin|Hin].
  { apply list_elem_of_fmap in Hin as (m & Hm & _). discriminate Hm. }
  destruct Hcase
    as [[-> _]|(ai & m & w1 & v & c' & p' & Hd & _ & Hl & Hv & Ht)].
  { by apply elem_of_nil in Hin. }
  assert (c = c' ∧ p = p') as [-> ->].
  { destruct Ht as [->|(results & _ & _ & ->)].
    - apply list_elem_of_singleton in Hin. by injection Hin.
    - apply elem_of_cons in Hin as [Hin|Hin]; [by injection Hin|].
      apply list_elem_of_singleton in Hin. discriminate Hin. }
  exists ai, m, w1, v.
  destruct (directive_truthy _ _ _ Hv).
  split_and!; try done. by eapply directive_not_conversation.
Qed.

(** X6. A response carries data only when the store was called: whenever
    [data] is not null, the request made exactly one call to the store. *)
Theorem data_only_after_store_call request w a :
  (chat_endpoint request w).1 = Ok a → data a ≠ PNone →
  db_calls (trace (chat_endpoint request w).2) = S (db_calls (trace w)).
Proof.
  intros Ha Hdata.
  destruct (chat_endpoint_trace request w)
    as (tried & rest & tail & _ & -> & Hcase).
  rewrite !db_calls_app, db_calls_dispatch.
  destruct Hcase as [[_ Hnone]|(ai & m & w1 & v & c & p & _ & _ & _ & _ & Hd)].
  - by specialize (Hnone a Ha).
  - destruct (db_calls_tail _ _ _ _ _ _ Hd) as [-> _]. lia.
Qed.

(** X7. Without a database handle, or without a model client once the lazy
    initialisation has run, a request calls neither the model nor the
    store, and answers the advisory of what is missing, the database
    first. *)
Theorem unconfigured_makes_no_call request w :
  db w = None ∨ serving w = false →
  trace (chat_endpoint request w).2 = trace w
  ∧ (chat_endpoint request w).1
    = Ok (advisory (if bool_decide (db w = None) then no_database_advisory
                    else not_initialized_advisory)).
Proof.
  destruct (after_init_keeps w) as [Ht _].
  rewrite chat_endpoint_cases. intros [Hdb|Hs].
  - by rewrite Hdb.
  - rewrite Hs. by destruct (db w).
Qed.

(** X8. The initialisation is retried by the request itself: in a process
    that is not ready, a request whose initialisation succeeds (a database
    handle, a non-empty key, a client constructed) is served, and leaves
    the process ready with that client, so that the next request does not
    initialise again. *)
Theorem lazy_initialisation_recovers request w c :
  GEMINI_READY w = false → is_Some (db w) →
  api_key_set (GEMINI_API_KEY w) = true →
  genai_Client (default EmptyString (GEMINI_API_KEY w)) = Ok c →
  let w' := (chat_endpoint request w).2 in
  serving w = true
  ∧ chat_endpoint request w = chat_body request (after_init w)
  ∧ GEMINI_READY w' = true ∧ genai_client w' = Some c
  ∧ after_init w' = w' ∧ serving w' = true.
Proof.
  intros Hready [database Hdb] Hkey Hc. cbn zeta.
  assert (after_init w
          = {| GEMINI_API_KEY := GEMINI_API_KEY w; db := db w;
               genai_client := Some c; GEMINI_READY := true;
               trace := trace w |}) as Hinit.
  { unfold after_init, initialize_gemini.
    by rewrite Hready, Hkey, Hc. }
  assert (serving w = true) as Hs.
  { unfold serving. by rewrite Hinit, Hdb. }
  assert (chat_endpoint request w = chat_body request (after_init w)) as He.
  { by rewrite chat_endpoint_cases, Hdb, Hs. }
  destruct (chat_endpoint_run request w)
    as (tried & rest & tail & _ & Hw & _).
  destruct (log_calls_globals ((dispatch_call request <$> tried) ++ tail)
              (after_init w)) as (Hdb' & _ & Hready' & Hclient').
  rewrite <- Hw in Hdb', Hready', Hclient'.
  rewrite Hinit in Hdb', Hready', Hclient'.
  cbn [db GEMINI_READY genai_client] in Hdb', Hready', Hclient'.
  split_and!; try done.
  - unfold after_init. by rewrite Hready'.
  - unfold serving, after_init.
    by rewrite Hready', Hdb', Hdb, Hclient', Hready'.
Qed.

End Calls.

(** ** More on the conversions *)
Section Conversions.
Context `{Collaborators}.
Import PyStr PyStrFacts.

(** X9. The conversion of a record keeps its keys, makes every value a
    string, leaves the values that are strings already as they are, and
    so gives the same record when applied twice. *)
Theorem stringify_doc_strings (d : doc) :
  dom (stringify_doc d) = dom d
  ∧ (∀ k v, stringify_doc d !! k = Some v → ∃ s, v = PStr s)
  ∧ (∀ k s, d !! k = Some (PStr s) → stringify_doc d !! k = Some (PStr s))
  ∧ stringify_doc (stringify_doc d) = stringify_doc d.
Proof.
  rewrite !stringify_doc_fmap. split_and!.
  - apply dom_fmap_L.
  - intros k v. rewrite lookup_fmap.
    destruct (d !! k); intros [= <-]. eauto.
  - intros k s Hk. by rewrite lookup_fmap, Hk.
  - rewrite <- map_fmap_compose. apply map_fmap_ext. by intros k v _.
Qed.

Lemma lower_app s t : lower (s +:+ t) = lower s +:+ lower t.
Proof.
  induction s as [|c s IH]; [done|].
  rewrite app_cons. cbn [lower]. by rewrite IH, app_cons.
Qed.

(** X10. The dispatcher's test is a substring test on the error text alone:
    an error is retried whenever its text holds, anywhere, one of the six
    markers as written, or the word "quota" in any letter case; the class
    of the exception plays no part. *)
Theorem retryable_by_substring :
  Forall (fun marker =>
            ∀ cls a b, retryable (Exn cls (a +:+ marker +:+ b)) = true)
    ["429"; "RESOURCE_EXHAUSTED"; "quota"; "404"; "NOT_FOUND"; "400";
     "INVALID_ARGUMENT"]
  ∧ (∀ cls a word b,
       lower word = "quota" → retryable (Exn cls (a +:+ word +:+ b)) = true)
  ∧ (∀ cls cls' text,
       retryable (Exn cls text) = retryable (Exn cls' text)).
Proof.
  assert (∀ cls a word b,
            lower word = "quota" →
            retryable (Exn cls (a +:+ word +:+ b)) = true) as Hquota.
  { intros cls a word b Hw. unfold retryable, is_quota. cbn [exn_str].
    rewrite !lower_app, Hw, contains_app. by rewrite orb_true_r. }
  split_and!; [|done..].
  repeat constructor; intros cls a b;
    try (by apply Hquota);
    unfold retryable, is_quota, is_not_found, is_invalid_argument;
    cbn [exn_str]; rewrite contains_app;
    by rewrite ?orb_true_r.
Qed.

Lemma length_lstrip s : String.length (lstrip s) ≤ String.length s.
Proof.
  induction s as [|c s IH]; [done|]. cbn [lstrip].
  destruct (isspace c); cbn [String.length]; lia.
Qed.

Lemma length_rstrip s : String.length (rstrip s) ≤ String.length s.
Proof.
  induction s as [|c s IH]; [done|]. cbn [rstrip].
  destruct (rstrip s); [destruct (isspace c)|]; cbn [String.length] in *; lia.
Qed.

Lemma length_strip s : String.length (strip s) ≤ String.length s.
Proof.
  unfold strip. pose proof (length_lstrip (rstrip s)).
  pose proof (length_rstrip s). lia.
Qed.

Lemma length_slice_from n s :
  String.length (slice_from n s) ≤ String.length s.
Proof.
  revert s. induction n as [|n IH]; intros [|c s]; cbn; try lia.
  specialize (IH s). lia.
Qed.

Lemma length_take n s : String.length (take n s) ≤ String.length s.
Proof.
  revert s. induction n as [|n IH]; intros [|c s]; cbn; try lia.
  specialize (IH s). lia.
Qed.

Lemma startswith_space s p c :
  all_space s = true → isspace c = false →
  startswith s (String c p) = false.
Proof.
  destruct s as [|c' s]; [done|]. cbn [all_space].
  intros [Hc' _]%andb_true_iff Hc. unfold startswith.
  rewrite prefix_cons. destruct (Ascii.eqb_spec c c'); [congruence|done].
Qed.

Lemma endswith_space s p c :
  all_space s = true → isspace c = false →
  endswith s (String c p) = false.
Proof.
  intros Hs Hc. induction s as [|c' s IH]; [done|].
  cbn [all_space] in Hs. apply andb_true_iff in Hs as [Hc' Hs].
  cbn [endswith String.eqb]. rewrite (IH Hs).
  destruct (Ascii.eqb_spec c' c); [congruence|done].
Qed.

(** X11. The clean-up returns a text with no whitespace around it and
    never a longer one than it was given; an output of whitespace only
    (or an empty one) is cleaned to the empty text. *)
Theorem strip_fences_trims s :
  strip (strip_fences s) = strip_fences s
  ∧ String.length (strip_fences s) ≤ String.length s
  ∧ (all_space s = true → strip_fences s = EmptyString).
Proof.
  split_and!.
  - unfold strip_fences. apply strip_idem.
  - unfold strip_fences.
    pose proof (length_slice_from 7 s) as L7.
    destruct (startswith s "```json").
    + set (s1 := slice_from 7 s) in *.
      pose proof (length_slice_from 3 s1) as L3.
      destruct (startswith s1 "```").
      * set (s2 := slice_from 3 s1) in *.
        pose proof (length_take (String.length s2 - 3) s2).
        pose proof (length_strip (slice_to_last 3 s2)).
        pose proof (length_strip s2).
        unfold slice_to_last in *. destruct (endswith s2 "```"); lia.
      * pose proof (length_take (String.length s1 - 3) s1).
        pose proof (length_strip (slice_to_last 3 s1)).
        pose proof (length_strip s1).
        unfold slice_to_last in *. destruct (endswith s1 "```"); lia.
    + pose proof (length_slice_from 3 s) as L3.
      destruct (startswith s "```").
      * set (s2 := slice_from 3 s) in *.
        pose proof (length_take (String.length s2 - 3) s2).
        pose proof (length_strip (slice_to_last 3 s2)).
        pose proof (length_strip s2).
        unfold slice_to_last in *. destruct (endswith s2 "```"); lia.
      * pose proof (length_take (String.length s - 3) s).
        pose proof (length_strip (slice_to_last 3 s)).
        pose proof (length_strip s).
        unfold slice_to_last in *. destruct (endswith s "```"); lia.
  - intros Hs. unfold strip_fences.
    rewrite !(startswith_space s _ "`" Hs eq_refl).
    rewrite (endswith_space s _ "`" Hs eq_refl).
    unfold strip. by rewrite rstrip_space.
Qed.

End Conversions.

(** ** The start of the process and the diagnostic routes *)

Variant MongoClient := MongoClientOf (uri : string).

(** What the module asks of the driver outside [/chat]: the client's
    constructor, [client_db.get_database()], [db.list_collection_names()],
    and on [db.transactions]: [distinct(field)], [list(find().limit(n))]
    and [count_documents({})]. *)
Class Host := {
  MongoClient_new : string -> outcome MongoClient;
  get_database : MongoClient -> outcome Database;
  list_collection_names : outcome (list string);
  transactions_distinct : string -> outcome (list pyval);
  transactions_find_limit : nat -> outcome (list doc);
  transactions_count_documents : outcome Z
}.

(** The globals of [world] and [client_db]. *)
Record process := {
  globals : world;
  client_db : option MongoClient
}.

Definition outcome_bind {A B} (o : outcome A) (k : A -> outcome B)
  : outcome B :=
  match o with
  | Ok a => k a
  | Raise e => Raise e
  end.

Notation "'do' x '<-' o ';' k" := (outcome_bind o (fun x => k))
  (at level 10, x pattern, o at level 100, k at level 200).

(** The status a route answers with: 200 for a returned value, 500 for an
    exception that leaves the handler. *)
Definition route_status {A} (r : outcome A) : nat :=
  match r with Ok _ => 200 | Raise _ => 500 end.

Section Process.
Context `{Collaborators} `{Host}.

(** [bool(v)] for what [os.getenv] returns. *)
Definition env_truthy (v : option string) : bool :=
  match v with
  | Some s => negb (String.eqb s EmptyString)
  | None => false
  end.

(** [a or b] *)
Definition py_or (a b : option string) : option string :=
  if env_truthy a then a else b.

(** Lines 29-41: the connection to the store. An exception of
    [get_database] leaves [client_db] set and [db] not. *)
Definition connect (MONGO_URI : option string)
  : option MongoClient * option Database :=
  if env_truthy MONGO_URI then
    match MongoClient_new (default EmptyString MONGO_URI) with
    | Ok client =>
        match get_database client with
        | Ok database => (Some client, Some database)
        | Raise _ => (Some client, None)
        end
    | Raise _ => (None, None)
    end
  else (None, None).

(** The module's top level (lines 29-46, 380 and 402) in the environment
    [environ], as [load_dotenv] left it. *)
Definition startup (environ : gmap string string) : process :=
  let MONGO_URI :=
    py_or (environ !! "DATABASE_URL") (environ !! "MONGODB_URI") in
  let connection := connect MONGO_URI in
  let w :=
    {| GEMINI_API_KEY := environ !! "GEMINI_API_KEY";
       db := connection.2;
       genai_client := None;
       GEMINI_READY := false;
       trace := [] |} in
  {| globals := (initialize_gemini w).2; client_db := connection.1 |}.

(** [health_check] (lines 540-546). *)
Definition health_check (p : process) : outcome pyval :=
  do available_collections <-
    (match client_db p with
     | Some _ =>
         match db (globals p) with
         | Some _ => list_collection_names
         | None =>
             Raise (Exn AttributeError
                      "'NoneType' object has no attribute 'list_collection_names'")
         end
     | None => Ok []
     end);
  Ok (PDict {[ "status" := PStr "ok";
               "gemini_ready" := PBool (GEMINI_READY (globals p));
               "mongodb_connected" :=
                 PBool (bool_decide (is_Some (client_db p)));
               "available_collections" :=
                 PList (PStr <$> available_collections) ]}).

(** Lines 558-560, for one sample. *)
Definition stringify_sample (sample : doc) : outcome doc :=
  match sample !! "_id" with
  | None => Raise (Exn KeyError "'_id'")
  | Some v =>
      let sample := <["_id" := PStr (py_str v)]> sample in
      match sample !! "createdAt" with
      | Some t => Ok (<["createdAt" := PStr (py_str t)]> sample)
      | None => Ok sample
      end
  end.

(** The loop of lines 557-560. *)
Fixpoint stringify_samples (samples : list doc) : outcome (list doc) :=
  match samples with
  | [] => Ok []
  | sample :: rest =>
      do sample' <- stringify_sample sample;
      do rest' <- stringify_samples rest;
      Ok (sample' :: rest')
  end.

(** The body of the [try] of [debug_transactions] (lines 552-566). *)
Definition debug_transactions_try (p : process) : outcome pyval :=
  match db (globals p) with
  | None =>
      Raise (Exn AttributeError
               "'NoneType' object has no attribute 'transactions'")
  | Some _ =>
      do types <- transactions_distinct "type";
      do samples <- transactions_find_limit 5;
      do samples <- stringify_samples samples;
      do total_count <- transactions_count_documents;
      Ok (PDict {[ "distinct_types" := PList types;
                   "sample_transactions" := PList (PDict <$> samples);
                   "total_count" := PInt total_count ]})
  end.

(** [debug_transactions] (lines 549-568). *)
Definition debug_transactions (p : process) : outcome pyval :=
  match debug_transactions_try p with
  | Ok answer => Ok answer
  | Raise e => Ok (PDict {[ "error" := PStr (exn_str e) ]})
  end.

End Process.

Section ProcessFacts.
Context `{Collaborators} `{Host}.

Lemma connect_cases uri :
  let connection := connect uri in
  (is_Some connection.2 → is_Some connection.1)
  ∧ (is_Some connection.1 → env_truthy uri = true).
Proof.
  unfold connect. destruct (env_truthy uri); [|by split; intros []].
  destruct (MongoClient_new _) as [client|e]; [|by split; intros []].
  destruct (get_database client); cbn; split; eauto.
Qed.

Lemma startup_db environ :
  db (globals (startup environ))
  = (connect (py_or (environ !! "DATABASE_URL")
                (environ !! "MONGODB_URI"))).2.
Proof.
  unfold startup. cbn [globals].
  by destruct (initialize_gemini_keeps
                 {| GEMINI_API_KEY := environ !! "GEMINI_API_KEY";
                    db := (connect (py_or (environ !! "DATABASE_URL")
                                      (environ !! "MONGODB_URI"))).2;
                    genai_client := None; GEMINI_READY := false;
                    trace := [] |}) as [_ ->].
Qed.

(** X12. The process always starts, whatever the environment holds and
    whatever the constructors do. It starts with no call made, with the
    ready flag set exactly when a model client is held, and with a
    database handle only if it also holds the store's client, which in
    turn needs a non-empty [DATABASE_URL] or [MONGODB_URI]. *)
Theorem startup_state environ :
  let p := startup environ in
  (is_Some (db (globals p)) → is_Some (client_db p))
  ∧ (is_Some (client_db p) →
     env_truthy (environ !! "DATABASE_URL") = true
     ∨ env_truthy (environ !! "MONGODB_URI") = true)
  ∧ trace (globals p) = []
  ∧ consistent (globals p)
  ∧ GEMINI_API_KEY (globals p) = environ !! "GEMINI_API_KEY".
Proof.
  cbn zeta. rewrite startup_db.
  set (uri := py_or _ _).
  destruct (connect_cases uri) as [Hdb Hclient].
  set (w := {| GEMINI_API_KEY := environ !! "GEMINI_API_KEY";
               db := (connect uri).2; genai_client := None;
               GEMINI_READY := false; trace := [] |}).
  assert (globals (startup environ) = (initialize_gemini w).2) as -> by done.
  split_and!.
  - exact Hdb.
  - intros Hc. specialize (Hclient Hc). unfold uri, py_or in Hclient.
    destruct (env_truthy (environ !! "DATABASE_URL")); auto.
  - by destruct (initialize_gemini_keeps w) as [-> _].
  - apply initialize_gemini_consistent. unfold consistent. cbn.
    split; [done|]. by intros [].
  - unfold initialize_gemini. cbn.
    destruct (negb _); [done|]. by destruct (genai_Client _).
Qed.

(** X13. [DATABASE_URL] comes first: when it is set and not empty,
    [MONGODB_URI] plays no part in the start; when it is unset or empty,
    the process starts as if [DATABASE_URL] held the value of
    [MONGODB_URI]. *)
Theorem database_url_precedence environ :
  (∀ x,
     env_truthy (environ !! "DATABASE_URL") = true →
     startup (<["MONGODB_URI" := x]> environ) = startup environ
     ∧ startup (delete "MONGODB_URI" environ) = startup environ)
  ∧ (∀ m,
       env_truthy (environ !! "DATABASE_URL") = false →
       environ !! "MONGODB_URI" = Some m →
       startup (<["DATABASE_URL" := m]> environ) = startup environ).
Proof.
  split.
  - intros x Hd. unfold startup, py_or.
    rewrite !lookup_insert_ne, !lookup_delete_ne by done.
    by rewrite Hd.
  - intros m Hd Hm. unfold startup, py_or.
    rewrite lookup_insert_eq, !lookup_insert_ne by done.
    rewrite Hd, Hm. by destruct (env_truthy (Some m)) eqn:Hmt.
Qed.

Definition health_answer (p : process) (names : list string) : pyval :=
  PDict {[ "status" := PStr "ok";
           "gemini_ready" := PBool (GEMINI_READY (globals p));
           "mongodb_connected" := PBool (bool_decide (is_Some (client_db p)));
           "available_collections" := PList (PStr <$> names) ]}.

(** X14. [health_check] has no handler of its own. Without a store client
    it answers with no collection and asks the store nothing; with a
    client and a database handle it answers the store's list of names, and
    an exception of the store leaves the handler, so the route answers
    500. *)
Theorem health_check_cases p :
  (client_db p = None → health_check p = Ok (health_answer p []))
  ∧ (is_Some (client_db p) → is_Some (db (globals p)) →
     (∀ names,
        list_collection_names = Ok names →
        health_check p = Ok (health_answer p names))
     ∧ (∀ e,
          list_collection_names = Raise e →
          health_check p = Raise e ∧ route_status (health_check p) = 500)).
Proof.
  unfold health_check, health_answer. split.
  - by intros ->.
  - intros [client ->] [database ->]. split.
    + by intros names ->.
    + by intros e ->.
Qed.

(** X15. When the store's client is constructed and [get_database] raises,
    the process starts with [client_db] set and [db] not: [health_check],
    which tests the one and uses the other, raises an [AttributeError]
    (the route answers 500), while [/chat] answers the no-database
    advisory and [debug_transactions] its error object. *)
Theorem failed_get_database environ client e request :
  let uri :=
    py_or (environ !! "DATABASE_URL") (environ !! "MONGODB_URI") in
  env_truthy uri = true →
  MongoClient_new (default EmptyString uri) = Ok client →
  get_database client = Raise e →
  let p := startup environ in
  client_db p = Some client ∧ db (globals p) = None
  ∧ health_check p
    = Raise (Exn AttributeError
               "'NoneType' object has no attribute 'list_collection_names'")
  ∧ route_status (health_check p) = 500
  ∧ (chat_endpoint request (globals p)).1
    = Ok (advisory no_database_advisory)
  ∧ debug_transactions p
    = Ok (PDict {[ "error" :=
                     PStr "'NoneType' object has no attribute 'transactions'" ]}).
Proof.
  intros uri Hu Hc Hg p.
  assert (client_db p = Some client) as Hclient.
  { unfold p, startup, connect. cbn. fold uri. by rewrite Hu, Hc, Hg. }
  assert (db (globals p) = None) as Hdb.
  { unfold p. rewrite startup_db. fold uri. unfold connect.
    by rewrite Hu, Hc, Hg. }
  unfold health_check, debug_transactions, debug_transactions_try.
  rewrite Hclient, Hdb.
  split_and!; try done.
  by rewrite chat_endpoint_cases, Hdb.
Qed.

(** X16. With neither variable set to a non-empty value the process starts
    without a database: every [/chat] request is answered by the
    no-database advisory with no call made, and [health_check] reports no
    connection and no collection. *)
Theorem start_without_uri environ request :
  env_truthy (environ !! "DATABASE_URL") = false →
  env_truthy (environ !! "MONGODB_URI") = false →
  let p := startup environ in
  db (globals p) = None ∧ client_db p = None
  ∧ (chat_endpoint request (globals p)).1
    = Ok (advisory no_database_advisory)
  ∧ trace (chat_endpoint request (globals p)).2 = []
  ∧ health_check p
    = Ok (PDict {[ "status" := PStr "ok";
                   "gemini_ready" := PBool (GEMINI_READY (globals p));
                   "mongodb_connected" := PBool false;
                   "available_collections" := PList [] ]}).
Proof.
  intros Hd Hm p.
  assert (connect (py_or (environ !! "DATABASE_URL")
                     (environ !! "MONGODB_URI")) = (None, None)) as Hc.
  { unfold py_or, connect. by rewrite Hd, Hm. }
  assert (client_db p = None) as Hclient.
  { unfold p, startup. cbn. by rewrite Hc. }
  assert (db (globals p) = None) as Hdb.
  { unfold p. by rewrite startup_db, Hc. }
  assert (trace (globals p) = []) as Ht.
  { unfold p, startup. cbn [globals].
    by destruct (initialize_gemini_keeps
                   {| GEMINI_API_KEY := environ !! "GEMINI_API_KEY";
                      db := (connect (py_or (environ !! "DATABASE_URL")
                                        (environ !! "MONGODB_URI"))).2;
                      genai_client := None; GEMINI_READY := false;
                      trace := [] |}) as [-> _]. }
  split_and!; try done.
  - by rewrite chat_endpoint_cases, Hdb.
  - rewrite chat_endpoint_cases, Hdb. cbn [snd].
    by destruct (after_init_keeps (globals p)) as [-> _].
  - unfold health_check. by rewrite Hclient.
Qed.

(** The view of a sample that [debug_transactions] returns: [_id] and
    [createdAt] as strings where they are present. *)
Definition sample_view (sample : doc) : doc :=
  alter (fun t => PStr (py_str t)) "createdAt"
    (alter (fun v => PStr (py_str v)) "_id" sample).

Lemma stringify_sample_view sample :
  is_Some (sample !! "_id") →
  stringify_sample sample = Ok (sample_view sample).
Proof.
  intros [v Hv]. unfold stringify_sample, sample_view. rewrite Hv.
  rewrite lookup_insert_ne by done.
  assert (<["_id" := PStr (py_str v)]> sample
          = alter (fun v => PStr (py_str v)) "_id" sample) as ->.
  { apply map_eq. intros k. destruct (decide (k = "_id")) as [->|Hk].
    - by rewrite lookup_insert_eq, lookup_alter_eq, Hv.
    - by rewrite lookup_insert_ne, lookup_alter_ne by done. }
  destruct (sample !! "createdAt") as [t|] eqn:Ht; f_equal;
    apply map_eq; intros k;
    (destruct (decide (k = "createdAt")) as [->|Hk];
     [rewrite ?lookup_insert_eq, lookup_alter_eq,
        (lookup_alter_ne _ _ "_id") by done; by rewrite Ht
     |by rewrite ?lookup_insert_ne, (lookup_alter_ne _ _ "createdAt")
        by done]).
Qed.

Lemma stringify_samples_view samples :
  Forall (fun sample => is_Some (sample !! "_id")) samples →
  stringify_samples samples = Ok (sample_view <$> samples).
Proof.
  induction 1 as [|sample samples Hs _ IH]; [done|].
  cbn [stringify_samples]. by rewrite stringify_sample_view, IH.
Qed.

Lemma stringify_samples_missing samples :
  Exists (fun sample => sample !! "_id" = None) samples →
  stringify_samples samples = Raise (Exn KeyError "'_id'").
Proof.
  induction samples as [|sample samples IH]; intros Hex.
  { by apply Exists_nil in Hex. }
  cbn [stringify_samples]. unfold stringify_sample at 1.
  destruct (sample !! "_id") as [v|] eqn:Hv; [|done].
  apply Exists_cons in Hex as [Hex|Hex]; [congruence|].
  rewrite (IH Hex). cbn.
  by destruct (_ !! "createdAt").
Qed.

(** X17. Of a sample, [debug_transactions] turns [_id] and, when present,
    [createdAt] into strings and nothing else: every other field is
    returned as the store gave it, and no field is added or dropped. A
    sample without [_id] raises a [KeyError]. *)
Theorem stringify_sample_fields sample :
  (sample !! "_id" = None →
   stringify_sample sample = Raise (Exn KeyError "'_id'"))
  ∧ (∀ v,
       sample !! "_id" = Some v →
       ∃ sample',
         stringify_sample sample = Ok sample'
         ∧ sample' !! "_id" = Some (PStr (py_str v))
         ∧ sample' !! "createdAt"
           = (fun t => PStr (py_str t)) <$> sample !! "createdAt"
         ∧ (∀ k, k ≠ "_id" → k ≠ "createdAt" → sample' !! k = sample !! k)
         ∧ dom sample' = dom sample).
Proof.
  split.
  - intros Hv. unfold stringify_sample. by rewrite Hv.
  - intros v Hv. exists (sample_view sample).
    split; [apply stringify_sample_view; eauto|].
    unfold sample_view. split_and!.
    + rewrite lookup_alter_ne by done. by rewrite lookup_alter_eq, Hv.
    + rewrite lookup_alter_eq. by rewrite lookup_alter_ne by done.
    + intros k H1 H2. by rewrite !lookup_alter_ne by done.
    + by rewrite !dom_alter_L.
Qed.


End ProcessFacts.

(** ** More runs on the scripted deployment *)
Module MoreRuns.
Import Fixture Runs.

(** A driver whose [get_database] wants a database name in the URI, and a
    store of two transactions, the second with no [createdAt]. *)
Definition transactions : list doc :=
  [ {[ "_id" := PObj "ObjectId" "65a1f0c2e4b0a1b2c3d4e601";
       "amount" := PInt 40;
       "type" := PStr "deposit";
       "createdAt" := PObj "datetime" "2026-01-05 10:00:00" ]};
    {[ "_id" := PObj "ObjectId" "65a1f0c2e4b0a1b2c3d4e602";
       "amount" := PInt 15;
       "type" := PStr "withdrawal" ]} ].

Definition host : Host := {|
  MongoClient_new := fun uri => Ok (MongoClientOf uri);
  get_database := fun client =>
    match client with
    | MongoClientOf uri =>
        if String.eqb uri "mongodb://db.example/bank" then Ok MongoDatabase
        else Raise (Exn (OtherException "ConfigurationError")
                      "No default database name defined or provided.")
    end;
  list_collection_names := Ok ["accounts"; "transactions"];
  transactions_distinct := fun _ => Ok [PStr "deposit"; PStr "withdrawal"];
  transactions_find_limit := fun n => Ok (firstn n transactions);
  transactions_count_documents := Ok 2%Z
|}.

(** A process with a database and a key, the model client not yet made. *)
Definition not_ready : world := {|
  GEMINI_API_KEY := Some "key";
  db := Some MongoDatabase;
  genai_client := None;
  GEMINI_READY := false;
  trace := []
|}.

(** An environment whose URI names no database. *)
Definition bare_uri : gmap string string :=
  {[ "MONGODB_URI" := "mongodb://db.example"; "GEMINI_API_KEY" := "key" ]}.

(** A deployment whose client can no longer be constructed. *)
Definition no_client : Collaborators := {|
  SYSTEM_PROMPT := SYSTEM_PROMPT (Collaborators := all_up);
  genai_Client := fun _ =>
    Raise (Exn (OtherException "ValueError") "Missing key inputs argument!");
  generate_content := generate_content (Collaborators := all_up);
  aggregate := aggregate (Collaborators := all_up);
  json_loads := json_loads (Collaborators := all_up);
  json_dumps := json_dumps (Collaborators := all_up);
  py_repr := py_repr (Collaborators := all_up);
  validation_error := validation_error (Collaborators := all_up)
|}.

(** X2, run: the client made once is kept when the constructor has
    started to fail; without it the same call returns [False]. *)
Lemma initialize_gemini_once_witness :
  initialize_gemini (H := no_client)
    (initialize_gemini (H := all_up) not_ready).2
  = (Ok true, (initialize_gemini (H := all_up) not_ready).2)
  ∧ initialize_gemini (H := no_client) not_ready = (Ok false, not_ready).
Proof.
  split; [|reflexivity].
  destruct (@initialize_gemini_once all_up no_client not_ready) as [Hkept _].
  apply Hkept. reflexivity.
Defined.

(** X5, run: the aggregation of the total-balance request. *)
Lemma store_called_only_for_directive_witness :
  ∃ ai_content selected_model w1 v,
    dispatched (H := all_up) (ask "total balance") started
      ai_content selected_model w1
    ∧ json_loads (Collaborators := all_up) (strip_fences ai_content) = Ok v
    ∧ directive v = Some (PStr "accounts", total_balance_pipeline)
    ∧ as_conversation v = None
    ∧ truthy (PStr "accounts") = true
    ∧ truthy total_balance_pipeline = true.
Proof.
  apply (@store_called_only_for_directive all_up (ask "total balance")
           started (PStr "accounts") total_balance_pipeline).
  vm_compute. apply list_elem_of_further, list_elem_of_here.
Defined.

(** X6, run: the response to the total-balance request carries data. *)
Lemma data_only_after_store_call_witness :
  db_calls
    (trace (chat_endpoint (H := all_up) (ask "total balance") started).2)
  = 1.
Proof.
  apply (@data_only_after_store_call all_up (ask "total balance") started
           {| response := PyStr.strip summary_text;
              data := PList [PDict {[ "_id" := PStr "None";
                                      "totalBalance" := PStr "350" ]}] |}).
  - vm_compute. reflexivity.
  - discriminate.
Defined.

(** X7, run: a process with no key answers without calling anyone. *)
Lemma unconfigured_makes_no_call_witness :
  trace
    (chat_endpoint (H := all_up) (ask "hello")
       {| GEMINI_API_KEY := None; db := Some MongoDatabase;
          genai_client := None; GEMINI_READY := false; trace := [] |}).2
  = []
  ∧ (chat_endpoint (H := all_up) (ask "hello")
       {| GEMINI_API_KEY := None; db := Some MongoDatabase;
          genai_client := None; GEMINI_READY := false; trace := [] |}).1
    = Ok (advisory not_initialized_advisory).
Proof.
  apply (@unconfigured_makes_no_call all_up (ask "hello")
           {| GEMINI_API_KEY := None; db := Some MongoDatabase;
              genai_client := None; GEMINI_READY := false; trace := [] |}).
  right. reflexivity.
Defined.

(** X8, run: the first request makes the client. *)
Lemma lazy_initialisation_recovers_witness :
  (chat_endpoint (H := all_up) (ask "hello") not_ready).1
  = Ok {| response := "Hi"; data := PNone |}
  ∧ GEMINI_READY (chat_endpoint (H := all_up) (ask "hello") not_ready).2
    = true.
Proof.
  destruct (@lazy_initialisation_recovers all_up (ask "hello") not_ready
              (GenaiClient "key"))
    as (_ & He & Hready & _).
  - reflexivity.
  - by eexists.
  - reflexivity.
  - reflexivity.
  - split; [|exact Hready]. rewrite He. vm_compute. reflexivity.
Defined.

(** X10, run: a capitalised "Quota" is retried. *)
Lemma retryable_by_substring_witness :
  retryable
    (Exn (OtherException "ClientError")
         ("Daily " +:+ "Quota" +:+ " exceeded"))
  = true.
Proof.
  destruct retryable_by_substring as (_ & Hq & _).
  apply Hq. reflexivity.
Defined.

(** X13, run: with [DATABASE_URL] set, [MONGODB_URI] is not looked at. *)
Lemma database_url_precedence_witness :
  startup (H := all_up) (H0 := host)
    (<["MONGODB_URI" := "mongodb://other.example/x"]>
       {[ "DATABASE_URL" := "mongodb://db.example/bank" ]})
  = startup (H := all_up) (H0 := host)
      {[ "DATABASE_URL" := "mongodb://db.example/bank" ]}.
Proof.
  destruct (@database_url_precedence all_up host
              {[ "DATABASE_URL" := "mongodb://db.example/bank" ]})
    as [Hset _].
  apply (Hset "mongodb://other.example/x"). reflexivity.
Defined.

(** X15, run: the URI names no database. *)
Lemma failed_get_database_witness :
  route_status
    (health_check (H0 := host) (startup (H := all_up) (H0 := host) bare_uri))
  = 500
  ∧ (chat_endpoint (H := all_up) (ask "hello")
       (globals (startup (H := all_up) (H0 := host) bare_uri))).1
    = Ok (advisory no_database_advisory).
Proof.
  destruct (@failed_get_database all_up host bare_uri
              (MongoClientOf "mongodb://db.example")
              (Exn (OtherException "ConfigurationError")
                 "No default database name defined or provided.")
              (ask "hello"))
    as (_ & _ & _ & Hs & Hc & _).
  - reflexivity.
  - reflexivity.
  - reflexivity.
  - split; [exact Hs|exact Hc].
Defined.

(** X16, run: an empty environment. *)
Lemma start_without_uri_witness :
  (chat_endpoint (H := all_up) (ask "hello")
     (globals (startup (H := all_up) (H0 := host) ∅))).1
  = Ok (advisory no_database_advisory)
  ∧ client_db (startup (H := all_up) (H0 := host) ∅) = None.
Proof.
  destruct (@start_without_uri all_up host ∅ (ask "hello"))
    as (_ & Hclient & Hchat & _).
  - reflexivity.
  - reflexivity.
  - split; [exact Hchat|exact Hclient].
Defined.


End MoreRuns.
